(** * Thumbnail generator (script.py): a shallow embedding and its properties

    The script reads a JSON manifest of MP4 files, keeps one record per
    identifier, resolves a seek offset for each retained record (title
    parse, then ffprobe, then the constant 30) and shells out to ffmpeg
    to grab a frame.

    Modelling conventions.
    - A Python [str] is a [str]: a sequence of code points, each a
      [char] (a number). Literals are written in UTF-8 and read as the
      code points they encode.
    - The interpreter is CPython 3.11 with its defaults: the character
      classes of [str.isspace], [str.strip], [int] and of the regular
      expressions are those of Unicode 14.0.0, and [int] refuses a
      literal of more than 4300 digits.
    - A Python [float] is a binary64 [float] of the kernel; a Python [int]
      is a [Z].
    - Exceptions are values of [exn]; code that can raise lives in the
      error monad [res] (pure code) or in [M] (code with effects).
    - Everything outside the interpreter (subprocesses, the file system,
      the contents of the manifest) is reached through the [World] class;
      every theorem holds for every instance of it.
    - [print] always succeeds: standard output takes every string the
      script writes. *)

From Stdlib Require Import ZArith NArith List Bool Arith Lia.
From Stdlib Require Import Strings.Byte.
From Stdlib Require Import PrimFloat SpecFloat FloatOps.
Import ListNotations.

Set Implicit Arguments.

(* ================================================================= *)
(** ** Characters and strings *)

Declare Scope pychar_scope.
Delimit Scope pychar_scope with pychar.

(** A character is its code point. *)
Definition char : Type := N.
Bind Scope pychar_scope with char.

Definition char_of_byte (b : byte) : N := Byte.to_N b.

Definition byte_of_char (c : N) : option byte :=
  if (c <? 128)%N then Byte.of_N c else None.

(** An ASCII character between quotes is its code point. *)
String Notation N char_of_byte byte_of_char : pychar_scope.

Definition char_eqb (a b : char) : bool := N.eqb a b.

Inductive str : Type :=
| EmptyString
| String (c : char) (s : str).

Declare Scope str_scope.
Delimit Scope str_scope with str.
Bind Scope str_scope with str.

(** The payload of a continuation byte of UTF-8. *)
Definition utf8_cont (b : byte) : option N :=
  let n := Byte.to_N b in
  if ((128 <=? n) && (n <? 192))%N then Some (n - 128)%N else None.

(** The code points a sequence of bytes encodes in UTF-8. *)
Fixpoint utf8_decode (bs : list byte) : option str :=
  match bs with
  | [] => Some EmptyString
  | b :: r =>
      let n := Byte.to_N b in
      if (n <? 128)%N then option_map (String n) (utf8_decode r)
      else if (n <? 192)%N then None
      else if (n <? 224)%N then
        match r with
        | b1 :: r1 =>
            match utf8_cont b1 with
            | Some c1 =>
                option_map (String ((n - 192) * 64 + c1)%N) (utf8_decode r1)
            | None => None
            end
        | _ => None
        end
      else if (n <? 240)%N then
        match r with
        | b1 :: b2 :: r2 =>
            match utf8_cont b1, utf8_cont b2 with
            | Some c1, Some c2 =>
                option_map (String (((n - 224) * 64 + c1) * 64 + c2)%N)
                  (utf8_decode r2)
            | _, _ => None
            end
        | _ => None
        end
      else
        match r with
        | b1 :: b2 :: b3 :: r3 =>
            match utf8_cont b1, utf8_cont b2, utf8_cont b3 with
            | Some c1, Some c2, Some c3 =>
                option_map
                  (String ((((n - 240) * 64 + c1) * 64 + c2) * 64 + c3)%N)
                  (utf8_decode r3)
            | _, _, _ => None
            end
        | _ => None
        end
  end.

Definition utf8_byte (n : N) : byte :=
  match Byte.of_N n with
  | Some b => b
  | None => x00
  end.

Definition utf8_char (c : char) : list byte :=
  (if c <? 128 then [utf8_byte c]
   else if c <? 2048 then
     [utf8_byte (192 + c / 64); utf8_byte (128 + c mod 64)]
   else if c <? 65536 then
     [utf8_byte (224 + c / 4096); utf8_byte (128 + (c / 64) mod 64);
      utf8_byte (128 + c mod 64)]
   else
     [utf8_byte (240 + c / 262144); utf8_byte (128 + (c / 4096) mod 64);
      utf8_byte (128 + (c / 64) mod 64); utf8_byte (128 + c mod 64)])%N.

Fixpoint utf8_encode (s : str) : list byte :=
  match s with
  | EmptyString => []
  | String c r => (utf8_char c ++ utf8_encode r)%list
  end.

(** A string between quotes is the sequence of code points of its
    UTF-8 text. *)
String Notation str utf8_decode utf8_encode : str_scope.

(** [s + t] *)
Fixpoint append (s t : str) : str :=
  match s with
  | EmptyString => t
  | String c r => String c (append r t)
  end.

Infix "++" := append : str_scope.

Local Open Scope Z_scope.
Local Open Scope str_scope.

(* ================================================================= *)
(** ** Exceptions and the error monad of pure code *)

Inductive exn_class : Type :=
| TimeoutExpired
| CalledProcessError
| FileNotFoundError
| OSError
| ValueError
| TypeError
| OverflowError.

(** An exception: its class and its message ([str(e)]); where CPython
    completes a message with a value (the [repr] of a literal, a
    command and its status), the fixed part of the message is kept.
    All the classes above derive from [Exception]. *)
Record exn : Type := Exn { exn_cls : exn_class; exn_msg : str }.

Inductive res (A : Type) : Type :=
| Ok (a : A)
| Err (e : exn).
Arguments Ok {A} a.
Arguments Err {A} e.

Definition res_bind {A B} (x : res A) (f : A -> res B) : res B :=
  match x with
  | Ok a => f a
  | Err e => Err e
  end.

(* ================================================================= *)
(** ** Python strings *)

Module PyStr.

(** [len(s)] *)
Fixpoint length (s : str) : nat :=
  match s with
  | EmptyString => O
  | String _ r => S (length r)
  end.

(** [s == t] *)
Fixpoint eqb (s t : str) : bool :=
  match s, t with
  | EmptyString, EmptyString => true
  | String a s', String b t' => char_eqb a b && eqb s' t'
  | _, _ => false
  end.

(** [s[:n]] *)
Fixpoint take (n : nat) (s : str) : str :=
  match n, s with
  | S n', String c r => String c (take n' r)
  | _, _ => EmptyString
  end.

(** The whitespace of Unicode 14.0.0: the characters [str.isspace]
    accepts and [str.strip] removes, which are also those the class of
    blanks of [re] matches in a [str] pattern. *)
Definition whitespace : list char :=
  [9; 10; 11; 12; 13; 28; 29; 30; 31; 32; 133; 160; 5760;
   8192; 8193; 8194; 8195; 8196; 8197; 8198; 8199; 8200; 8201; 8202;
   8232; 8233; 8239; 8287; 12288]%N.

Definition is_space (c : char) : bool := existsb (N.eqb c) whitespace.

(** The digit zero of each run of ten decimal digits of Unicode 14.0.0
    (general category Nd); the digits of a run follow its zero in
    order. *)
Definition digit_zeros : list char :=
  [48; 1632; 1776; 1984; 2406; 2534; 2662; 2790; 2918; 3046; 3174; 3302;
   3430; 3558; 3664; 3792; 3872; 4160; 4240; 6112; 6160; 6470; 6608;
   6784; 6800; 6992; 7088; 7232; 7248; 42528; 43216; 43264; 43472; 43504;
   43600; 44016; 65296; 66720; 68912; 69734; 69872; 69942; 70096; 70384;
   70736; 70864; 71248; 71360; 71472; 71904; 72016; 72784; 73040; 73120;
   92768; 92864; 93008; 120782; 120792; 120802; 120812; 120822; 123200;
   123632; 125264; 130032]%N.

Fixpoint decimal_in (zeros : list char) (c : char) : option Z :=
  match zeros with
  | [] => None
  | z :: rest =>
      if ((z <=? c) && (c <? z + 10))%N then Some (Z.of_N (c - z))
      else decimal_in rest c
  end.

(** [unicodedata.decimal(c)], [None] when [c] is no decimal digit. *)
Definition decimal_value (c : char) : option Z := decimal_in digit_zeros c.

(** [str.isdecimal] on one character, which is also what the class of
    digits of [re] matches in a [str] pattern, and what [int] reads as
    a digit. *)
Definition is_digit (c : char) : bool :=
  match decimal_value c with
  | Some _ => true
  | None => false
  end.

Definition digit_val (c : char) : Z :=
  match decimal_value c with
  | Some d => d
  | None => 0
  end.

(** [s.replace(c, '')] for a one-character [c]. *)
Fixpoint remove_char (c : char) (s : str) : str :=
  match s with
  | EmptyString => EmptyString
  | String x r => if char_eqb x c then remove_char c r
                  else String x (remove_char c r)
  end.

Fixpoint lstrip (s : str) : str :=
  match s with
  | EmptyString => EmptyString
  | String c r => if is_space c then lstrip r else s
  end.

Fixpoint rstrip (s : str) : str :=
  match s with
  | EmptyString => EmptyString
  | String c r =>
      match rstrip r with
      | EmptyString => if is_space c then EmptyString else String c EmptyString
      | r' => String c r'
      end
  end.

(** [s.strip()] *)
Definition strip (s : str) : str := rstrip (lstrip s).

(** [sys.get_int_max_str_digits()], at its default. *)
Definition int_max_str_digits : nat := 4300.

Definition invalid_literal : exn :=
  Exn ValueError "invalid literal for int() with base 10".

Definition too_many_digits : exn :=
  Exn ValueError "Exceeds the limit (4300 digits) for integer string conversion".

(** The blanks [int] skips around a literal: those of C in the ASCII
    range (so not FS, GS, RS and US, which [str.isspace] accepts) and
    every whitespace character outside of it. *)
Definition is_int_space (c : char) : bool :=
  is_space c && negb ((28 <=? c) && (c <=? 31))%N.

Fixpoint skip_int_space (s : str) : str :=
  match s with
  | String c r => if is_int_space c then skip_int_space r else s
  | EmptyString => EmptyString
  end.

(** The digits of a base-10 literal: digits, with single underscores
    allowed between two digits. [int_scan acc n s] gives the value read
    (from [acc]), the number of digits read (from [n]) and what follows
    them; a misplaced underscore is an error. *)
Fixpoint int_scan (acc : Z) (n : nat) (s : str) : res (Z * nat * str) :=
  match s with
  | EmptyString => Ok (acc, n, s)
  | String c r =>
      if is_digit c then int_scan (acc * 10 + digit_val c) (S n) r
      else if char_eqb c "_" then
        match n, r with
        | S _, String c' r' =>
            if is_digit c' then int_scan (acc * 10 + digit_val c') (S n) r'
            else Err invalid_literal
        | _, _ => Err invalid_literal
        end
      else Ok (acc, n, s)
  end.

(** [int(s)] for a string [s]: blanks around the literal are dropped,
    one sign is allowed, and a literal of more than
    [int_max_str_digits] digits is refused, before what follows its
    digits is looked at. Every failure is a [ValueError]; the message
    of an invalid literal is given without the [repr] of [s] that ends
    it. *)
Definition int_of_str (s : str) : res Z :=
  let s := skip_int_space s in
  let signed :=
    match s with
    | String c r =>
        if char_eqb c "+" then (false, r)
        else if char_eqb c "-" then (true, r)
        else (false, s)
    | EmptyString => (false, s)
    end in
  res_bind (int_scan 0 0 (snd signed)) (fun scanned =>
    match scanned with
    | (z, n, rest) =>
        if (int_max_str_digits <? n)%nat then Err too_many_digits
        else
          match n, skip_int_space rest with
          | S _, EmptyString => Ok (if fst signed : bool then - z else z)
          | _, _ => Err invalid_literal
          end
    end).

Fixpoint str_of_uint (d : Decimal.uint) : str :=
  match d with
  | Decimal.Nil => EmptyString
  | Decimal.D0 d => String "0" (str_of_uint d)
  | Decimal.D1 d => String "1" (str_of_uint d)
  | Decimal.D2 d => String "2" (str_of_uint d)
  | Decimal.D3 d => String "3" (str_of_uint d)
  | Decimal.D4 d => String "4" (str_of_uint d)
  | Decimal.D5 d => String "5" (str_of_uint d)
  | Decimal.D6 d => String "6" (str_of_uint d)
  | Decimal.D7 d => String "7" (str_of_uint d)
  | Decimal.D8 d => String "8" (str_of_uint d)
  | Decimal.D9 d => String "9" (str_of_uint d)
  end.

(** [str(n)] for an integer. The limit of 4300 digits, which this
    conversion has as well, is out of reach of the integers the script
    prints: a duration is printed after its division by 2 gave a float,
    and the others count videos. *)
Definition str_of_nat (n : nat) : str := str_of_uint (Nat.to_uint n).

Definition str_of_Z (z : Z) : str :=
  match Z.to_int z with
  | Decimal.Pos d => str_of_uint d
  | Decimal.Neg d => String "-" (str_of_uint d)
  end.

End PyStr.

(* ================================================================= *)
(** ** Backtracking regular expressions ([re]) *)

Module Re.

(** The fragment of [re] syntax the script's pattern uses. [Star] and
    [Opt] are greedy; [Group i r] is the [i]-th capturing group. *)
Inductive regex : Type :=
| Lit (c : char)
| Cls (p : char -> bool)
| Seq (r1 r2 : regex)
| Star (r : regex)
| Opt (r : regex)
| Group (i : nat) (r : regex).

(** [r+] *)
Definition Plus (r : regex) : regex := Seq r (Star r).

(** The text captured by each group that took part in the match, most
    recent first. *)
Definition groups : Type := list (nat * str).

Fixpoint group (i : nat) (g : groups) : option str :=
  match g with
  | [] => None
  | (j, t) :: g' => if Nat.eqb i j then Some t else group i g'
  end.

(** What was consumed between the input [s] and its suffix [s']. *)
Definition consumed (s s' : str) : str :=
  PyStr.take (PyStr.length s - PyStr.length s') s.

(** [rmatch r s g k]: match [r] at the head of [s], then run the
    continuation [k] on what is left; a [None] from [k] makes the
    matcher backtrack into [r], longest alternative first. *)
Fixpoint rmatch (A : Type) (r : regex) (s : str) (g : groups)
    (k : str -> groups -> option A) {struct r} : option A :=
  match r with
  | Lit c =>
      match s with
      | String x s' => if char_eqb x c then k s' g else None
      | EmptyString => None
      end
  | Cls p =>
      match s with
      | String x s' => if p x then k s' g else None
      | EmptyString => None
      end
  | Seq r1 r2 => rmatch r1 s g (fun s' g' => rmatch r2 s' g' k)
  | Star r0 =>
      (fix star (n : nat) (s : str) (g : groups) {struct n} : option A :=
         match n with
         | O => k s g
         | S n' =>
             match rmatch r0 s g
                     (fun s' g' =>
                        if (PyStr.length s' <? PyStr.length s)%nat
                        then star n' s' g' else None) with
             | Some x => Some x
             | None => k s g
             end
         end) (PyStr.length s) s g
  | Opt r0 =>
      match rmatch r0 s g k with
      | Some x => Some x
      | None => k s g
      end
  | Group i r0 =>
      rmatch r0 s g (fun s' g' => k s' ((i, consumed s s') :: g'))
  end.

(** The continuation at the end of the pattern: the match is found. *)
Definition accept : str -> groups -> option groups := fun _ g => Some g.

(** [re.match(r, s)]: the groups of a match anchored at the start. *)
Definition re_match (r : regex) (s : str) : option groups :=
  rmatch r s [] accept.

(** [re.search(r, s)]: the leftmost position with a match. *)
Fixpoint re_search (r : regex) (s : str) : option groups :=
  match re_match r s with
  | Some g => Some g
  | None =>
      match s with
      | EmptyString => None
      | String _ s' => re_search r s'
      end
  end.

(** The words a regex denotes (what a successful match consumes). *)
Inductive lang : regex -> str -> Prop :=
| lang_lit c : lang (Lit c) (String c EmptyString)
| lang_cls (p : char -> bool) c :
    p c = true -> lang (Cls p) (String c EmptyString)
| lang_seq r1 r2 w1 w2 :
    lang r1 w1 -> lang r2 w2 -> lang (Seq r1 r2) (w1 ++ w2)
| lang_star_nil r : lang (Star r) EmptyString
| lang_star_cons r w1 w2 :
    lang r w1 -> lang (Star r) w2 -> lang (Star r) (w1 ++ w2)
| lang_opt_none r : lang (Opt r) EmptyString
| lang_opt_some r w : lang r w -> lang (Opt r) w
| lang_group i r w : lang r w -> lang (Group i r) w.

End Re.
(* ================================================================= *)
(** ** parse_duration *)

Import Re.

(** [int(s)] on a string. *)
Definition py_int_str (s : str) : res Z := PyStr.int_of_str s.

(** A title as the script holds it: a [str], or [None] when the
    manifest gives null. *)
Inductive title_value : Type :=
| TitleNull
| TitleStr (s : str).

Coercion TitleStr : str >-> title_value.

(** A string written under [Some] is read at the type expected there. *)
#[local] Arguments Some {A} & a.

(** Groups 1 to 3 of the pattern: digits, h and blanks; digits and m;
    digits and s. *)
Definition hours_group : regex :=
  Group 1 (Seq (Plus (Cls PyStr.is_digit))
          (Seq (Lit "h") (Star (Cls PyStr.is_space)))).

Definition minutes_group : regex :=
  Group 2 (Seq (Plus (Cls PyStr.is_digit)) (Lit "m")).

Definition seconds_group : regex :=
  Group 3 (Seq (Plus (Cls PyStr.is_digit)) (Lit "s")).

(** The pattern from the minutes on: group 2, blanks, group 3 if it
    matches, a comma. *)
Definition tail_pattern : regex :=
  Seq minutes_group
 (Seq (Star (Cls PyStr.is_space))
 (Seq (Opt seconds_group) (Lit ","))).

(** The pattern of [parse_duration]: an opening parenthesis, group 1
    if it matches, and the rest. *)
Definition duration_pattern : regex :=
  Seq (Lit "(") (Seq (Opt hours_group) tail_pattern).

(** Truth value of [match.group(i)]: [None] and the empty string are
    false. *)
Definition group_truthy (t : option str) : option str :=
  match t with
  | Some EmptyString => None
  | other => other
  end.

(** One [if part: total_seconds += int(part.replace(unit, '').strip()) * factor]. *)
Definition add_part (part : option str) (unit : char) (factor : Z)
    (total_seconds : Z) : res Z :=
  match group_truthy part with
  | Some t =>
      res_bind (py_int_str (PyStr.strip (PyStr.remove_char unit t)))
        (fun n => Ok (total_seconds + n * factor))
  | None => Ok total_seconds
  end.

(** [parse_duration(title)]: seconds, or [None] when the pattern is not
    found. [re.search] raises [TypeError] on a title that is [None]. *)
Definition parse_duration (title : title_value) : res (option Z) :=
  match title with
  | TitleNull =>
      Err (Exn TypeError "expected string or bytes-like object, got 'NoneType'")
  | TitleStr title =>
      match re_search duration_pattern title with
      | None => Ok None
      | Some mt =>
          let hours := group 1 mt in
          let minutes := group 2 mt in
          let seconds := group 3 mt in
          let total_seconds := 0 in
          res_bind (add_part hours "h" 3600 total_seconds) (fun total_seconds =>
          res_bind (add_part minutes "m" 60 total_seconds) (fun total_seconds =>
          res_bind (add_part seconds "s" 1 total_seconds) (fun total_seconds =>
          Ok (Some total_seconds))))
      end
  end.

(* ================================================================= *)
(** ** Numbers *)

(** A duration or a seek time: a Python [int] or [float]. *)
Inductive number : Type :=
| PyInt (z : Z)
| PyFloat (f : float).

(** Truth value of a float: false exactly for [0.0] and [-0.0]. *)
Definition float_truthy (f : float) : bool := negb (PrimFloat.eqb f 0%float).

Definition number_truthy (n : number) : bool :=
  match n with
  | PyInt z => negb (z =? 0)%Z
  | PyFloat f => float_truthy f
  end.

(** [d / 2] for an [int] [d]: the quotient rounded to the nearest float,
    [OverflowError] when it is out of range. *)
Definition int_truediv2 (d : Z) : res float :=
  match binary_normalize prec emax d (-1) false with
  | S754_infinity _ =>
      Err (Exn OverflowError "integer division result too large for a float")
  | x => Ok (SF2Prim x)
  end.

(** [d / 2] for a [float] [d]. *)
Definition float_div2 (d : float) : float := PrimFloat.div d 2%float.

(** [int(f)] for a [float] [f]: truncation towards zero. *)
Definition int_of_float (f : float) : res Z :=
  match Prim2SF f with
  | S754_zero _ => Ok 0
  | S754_finite s m e =>
      let v := Z.shiftl (Z.pos m) e in Ok (if s then (- v)%Z else v)
  | S754_infinity _ =>
      Err (Exn OverflowError "cannot convert float infinity to integer")
  | S754_nan => Err (Exn ValueError "cannot convert float NaN to integer")
  end.

(* ================================================================= *)
(** ** The manifest and deduplication *)

(** A [size] as JSON gives it: a number, a string, [true] or [false],
    or null. *)
Inductive size_value : Type :=
| SizeInt (z : Z)
| SizeFloat (f : float)
| SizeStr (s : str)
| SizeBool (b : bool)
| SizeNull.

(** One record of [mp4_files]. The manifests covered hold, under each
    of these keys, a value of the type given here. For [identifier],
    [url] and [filename], which the script reads with [video.get(key)],
    [None] is a key that is absent or null: [get] gives [None] for
    both. For [title] and [size], which are read with a default,
    [None] is a key that is absent; null is [TitleNull] and
    [SizeNull]. *)
Record video : Type := Video {
  identifier : option str;
  url : option str;
  filename : option str;
  title : option title_value;
  size : option size_value
}.

(** Truth value of an optional string: [None] and [''] are false. *)
Definition str_truthy (t : option str) : option str :=
  match t with
  | Some EmptyString => None
  | other => other
  end.

(** [int(x)] *)
Definition py_int (x : size_value) : res Z :=
  match x with
  | SizeInt z => Ok z
  | SizeFloat f => int_of_float f
  | SizeStr s => py_int_str s
  | SizeBool b => Ok (if b then 1 else 0)
  | SizeNull =>
      Err (Exn TypeError
             "int() argument must be a string, a bytes-like object or a real number, not 'NoneType'")
  end.

(** [int(video.get('size', 0))] *)
Definition int_size (v : video) : res Z :=
  match size v with
  | Some x => py_int x
  | None => py_int (SizeInt 0)
  end.

(** [video.get('title', '')] *)
Definition title_of (v : video) : title_value :=
  match title v with
  | Some t => t
  | None => TitleStr ""
  end.

(** [title[:n]]: [None] cannot be sliced. *)
Definition title_prefix (n : nat) (title : title_value) : res str :=
  match title with
  | TitleStr t => Ok (PyStr.take n t)
  | TitleNull => Err (Exn TypeError "'NoneType' object is not subscriptable")
  end.

(** [videos_by_id]: a dict keeps its keys in insertion order. *)
Definition dict : Type := list (str * video).

Fixpoint dict_get (k : str) (d : dict) : option video :=
  match d with
  | [] => None
  | (k', v) :: d' => if PyStr.eqb k k' then Some v else dict_get k d'
  end.

(** [d[k] = v]: an existing key keeps its place. *)
Fixpoint dict_set (k : str) (v : video) (d : dict) : dict :=
  match d with
  | [] => [(k, v)]
  | (k', v') :: d' =>
      if PyStr.eqb k k' then (k, v) :: d' else (k', v') :: dict_set k v d'
  end.

Definition dict_values (d : dict) : list video := map snd d.

(** The body of the deduplication loop. *)
Definition dedup_step (videos_by_id : dict) (v : video) : res dict :=
  match str_truthy (identifier v) with
  | None => Ok videos_by_id
  | Some id =>
      match dict_get id videos_by_id with
      | None => Ok (dict_set id v videos_by_id)
      | Some current =>
          res_bind (int_size current) (fun current_size =>
          res_bind (int_size v) (fun new_size =>
          if ((new_size <? current_size) && (new_size >? 0))%Z
          then Ok (dict_set id v videos_by_id)
          else Ok videos_by_id))
      end
  end.

Fixpoint dedup_loop (all_videos : list video) (videos_by_id : dict) : res dict :=
  match all_videos with
  | [] => Ok videos_by_id
  | v :: rest => res_bind (dedup_step videos_by_id v) (dedup_loop rest)
  end.

(** [videos = list(videos_by_id.values())] after the loop. *)
Definition dedup (all_videos : list video) : res (list video) :=
  res_bind (dedup_loop all_videos []) (fun d => Ok (dict_values d)).

(* ================================================================= *)
(** ** The outside world and the monad of effects *)

(** What [subprocess.run(..., capture_output=True, text=True)] returns. *)
Record completed : Type := Completed {
  returncode : Z;
  stdout : str;
  stderr : str
}.

(** One [subprocess.run]: the command and its [timeout] argument. *)
Definition call : Type := (list str * option Z)%type.

(** What [os.stat(p)] does, as far as the two tests of existence tell:
    it succeeds; it fails with an error both tests read as a missing
    file ([ENOENT], [ENOTDIR], [EBADF], [ELOOP], or a path that cannot
    be encoded); it fails with another [OSError], such as [EACCES] or
    [ENAMETOOLONG]. *)
Inductive stat_result : Type :=
| Found
| Missing
| StatError (e : exn).

(** What the script asks of its environment. [W] is the state of the
    world (file system, network, installed tools). *)
Class World (W : Type) : Type := {
  (** [subprocess.run(cmd, capture_output=True, text=True, timeout=t)] *)
  subprocess_run : list str -> option Z -> W -> res completed * W;
  (** [os.stat(p)] *)
  os_stat : str -> W -> stat_result;
  (** [open(p)], [json.load], [data.get('mp4_files', [])] *)
  load_mp4_files : str -> W -> res (list video);
  (** [Path(p).mkdir(exist_ok=True)] *)
  mkdir_exist_ok : str -> W -> res unit * W;
  (** [str(Path(d) / name)] *)
  path_join : str -> str -> str;
  (** [str(Path(d).absolute())], which asks for the working directory *)
  path_absolute : str -> W -> res str;
  (** [float(s)] *)
  py_float : str -> res float;
  (** [str(f)] for a float *)
  str_float : float -> str
}.

(** [os.path.exists(p)]: every failure of [os.stat] is read as a
    missing file. *)
Definition path_exists {W} `{World W} (p : str) (w : W) : bool :=
  match os_stat p w with
  | Found => true
  | Missing | StatError _ => false
  end.

(** The interpreter's state: the world, the lines printed so far, and
    the trace of the subprocesses started so far. *)
Record state (W : Type) : Type := State {
  st_world : W;
  st_out : list str;
  st_calls : list call
}.

Inductive outcome (A : Type) : Type :=
| Ret (a : A)
| Raise (e : exn)
| Exit (code : Z).
Arguments Ret {A} a.
Arguments Raise {A} e.
Arguments Exit {A} code.

Definition M (W A : Type) : Type := state W -> outcome A * state W.

Definition ret {W A} (a : A) : M W A := fun st => (Ret a, st).

Definition bind {W A B} (m : M W A) (f : A -> M W B) : M W B :=
  fun st =>
    match m st with
    | (Ret a, st') => f a st'
    | (Raise e, st') => (Raise e, st')
    | (Exit c, st') => (Exit c, st')
    end.

Notation "x <- m ;; k" := (bind m (fun x => k))
  (at level 61, m at next level, right associativity).
Notation "m ;;; k" := (bind m (fun _ => k))
  (at level 61, right associativity).

Definition raise {W A} (e : exn) : M W A := fun st => (Raise e, st).

(** [sys.exit(code)]: [SystemExit] is not an [Exception]. *)
Definition sys_exit {W A} (code : Z) : M W A := fun st => (Exit code, st).

Definition lift {W A} (r : res A) : M W A :=
  match r with
  | Ok a => ret a
  | Err e => raise e
  end.

(** [try: body / except ...: handler]; [handler e = None] when no clause
    catches [e]. *)
Definition try_except {W A} (body : M W A) (handler : exn -> option (M W A))
    : M W A :=
  fun st =>
    match body st with
    | (Raise e, st') =>
        match handler e with
        | Some h => h st'
        | None => (Raise e, st')
        end
    | other => other
    end.

Definition print {W} (line : str) : M W unit :=
  fun st => (Ret tt, State (st_world st) (st_out st ++ [line]) (st_calls st)).

Definition run {W} `{World W} (cmd : list str) (timeout : option Z)
    : M W completed :=
  fun st =>
    let (r, w) := subprocess_run cmd timeout (st_world st) in
    let st' := State w (st_out st) (st_calls st ++ [(cmd, timeout)]) in
    match r with
    | Ok c => (Ret c, st')
    | Err e => (Raise e, st')
    end.

(** [subprocess.run(cmd, capture_output=True, check=True)] *)
Definition run_check {W} `{World W} (cmd : list str) : M W completed :=
  c <- run cmd None ;;
  if (returncode c =? 0)%Z then ret c
  else raise (Exn CalledProcessError "returned non-zero exit status").

(** [os.path.exists(p)] *)
Definition exists_ {W} `{World W} (p : str) : M W bool :=
  fun st => (Ret (path_exists p (st_world st)), st).

(** [Path(p).exists()]: unlike [os.path.exists], it lets through the
    errors of [os.stat] that do not mean a missing file. *)
Definition Path_exists {W} `{World W} (p : str) : M W bool :=
  fun st =>
    match os_stat p (st_world st) with
    | Found => (Ret true, st)
    | Missing => (Ret false, st)
    | StatError e => (Raise e, st)
    end.

Definition load_json {W} `{World W} (p : str) : M W (list video) :=
  fun st =>
    match load_mp4_files p (st_world st) with
    | Ok vs => (Ret vs, st)
    | Err e => (Raise e, st)
    end.

Definition mkdir {W} `{World W} (p : str) : M W unit :=
  fun st =>
    let (r, w) := mkdir_exist_ok p (st_world st) in
    let st' := State w (st_out st) (st_calls st) in
    match r with
    | Ok u => (Ret u, st')
    | Err e => (Raise e, st')
    end.

Definition absolute {W} `{World W} (p : str) : M W str :=
  fun st =>
    match path_absolute p (st_world st) with
    | Ok d => (Ret d, st)
    | Err e => (Raise e, st)
    end.

(** The status the process ends with: 0 when [main] returns, the
    argument of [sys.exit], and 1 after an uncaught exception. *)
Definition exit_status {A} (o : outcome A) : Z :=
  match o with
  | Ret _ => 0
  | Raise _ => 1
  | Exit c => c
  end.

(* ================================================================= *)
(** ** get_video_duration *)

Definition ffprobe_cmd (url : str) : list str :=
  ["ffprobe"; "-v"; "error"; "-show_entries"; "format=duration";
   "-of"; "default=noprint_wrappers=1:nokey=1"; url].

(** The [try] block either returns a float or falls through to the
    final [return None]. *)
Definition get_video_duration {W} `{World W} (url : str)
    : M W (option float) :=
  try_except
    (let cmd := ffprobe_cmd url in
     result <- run cmd (Some 30) ;;
     if (returncode result =? 0)%Z
     then d <- lift (py_float (PyStr.strip (stdout result))) ;; ret (Some d)
     else ret None)
    (fun e => Some
       (print ("  ⚠ Could not get duration via ffprobe: " ++ exn_msg e) ;;;
        ret None)).

(** The probe as the specification words it: the duration printed by a
    run that completed with status 0, and no value after any failure (an
    exception such as a timeout, a non-zero status, an output that is
    not a float). *)
Definition probe_outcome {W} `{World W} (answer : res completed)
    : option float :=
  match answer with
  | Ok c =>
      if (returncode c =? 0)%Z then
        match py_float (PyStr.strip (stdout c)) with
        | Ok d => Some d
        | Err _ => None
        end
      else None
  | Err _ => None
  end.

(* ================================================================= *)
(** ** generate_thumbnail *)

Definition str_number {W} `{World W} (n : number) : str :=
  match n with
  | PyInt z => PyStr.str_of_Z z
  | PyFloat f => str_float f
  end.

(** Truth value of [seek_time]: [None] and zero are false. *)
Definition seek_truthy (seek_time : option number) : option number :=
  match seek_time with
  | Some n => if number_truthy n then Some n else None
  | None => None
  end.

(** The command line built by [generate_thumbnail]. *)
Definition ffmpeg_cmd {W} `{World W} (video_url output_path : str)
    (seek_time : option number) : list str :=
  let cmd := ["ffmpeg"; "-y"] in
  let cmd :=
    match seek_truthy seek_time with
    | Some n => (cmd ++ ["-ss"; str_number n])%list
    | None => cmd
    end in
  (cmd ++ ["-i"; video_url; "-vframes"; "1"; "-q:v"; "2";
           "-vf"; "scale=320:-1"; output_path])%list.

Definition generate_thumbnail {W} `{World W} (video_url output_path : str)
    (seek_time : option number) : M W bool :=
  try_except
    (let cmd := ffmpeg_cmd video_url output_path seek_time in
     result <- run cmd (Some 60) ;;
     if (returncode result =? 0)%Z then ret true
     else
       print ("  ✗ FFmpeg error: " ++ PyStr.take 200 (stderr result)) ;;;
       ret false)
    (fun e => Some
       match exn_cls e with
       | TimeoutExpired =>
           print "  ✗ Timeout extracting thumbnail" ;;; ret false
       | _ => print ("  ✗ Error: " ++ exn_msg e) ;;; ret false
       end).

(* ================================================================= *)
(** ** main *)

(** Truth value of a parsed duration: [None] and [0] are false. *)
Definition int_truthy (d : option Z) : option Z :=
  match d with
  | Some z => if (z =? 0)%Z then None else Some z
  | None => None
  end.

(** Truth value of a probed duration: [None] and zero are false. *)
Definition probe_truthy (d : option float) : option float :=
  match d with
  | Some f => if float_truthy f then Some f else None
  | None => None
  end.

(** The seek time of one video (from [duration = parse_duration(title)]
    to the end of the [if duration: ... else: ...] block). *)
Definition resolve_seek_time {W} `{World W} (title : title_value) (url : str)
    : M W number :=
  duration <- lift (parse_duration title) ;;
  match int_truthy duration with
  | Some duration =>
      seek_time <- lift (int_truediv2 duration) ;;
      print ("  → Duration: " ++ PyStr.str_of_Z duration ++ "s, seeking to "
             ++ str_float seek_time ++ "s (middle)") ;;;
      ret (PyFloat seek_time)
  | None =>
      print "  → Trying to detect duration..." ;;;
      duration <- get_video_duration url ;;
      match probe_truthy duration with
      | Some duration =>
          let seek_time := float_div2 duration in
          print ("  → Detected: " ++ str_float duration ++ "s, seeking to "
                 ++ str_float seek_time ++ "s (middle)") ;;;
          ret (PyFloat seek_time)
      | None =>
          let seek_time := PyInt 30 in
          print "  → Using fallback: seeking to 30s" ;;;
          ret seek_time
      end
  end.

Record counters : Type := Counters {
  success_count : Z;
  failed_count : Z;
  skipped_count : Z
}.

Definition incr_success (c : counters) : counters :=
  Counters (success_count c + 1) (failed_count c) (skipped_count c).

Definition incr_failed (c : counters) : counters :=
  Counters (success_count c) (failed_count c + 1) (skipped_count c).

Definition incr_skipped (c : counters) : counters :=
  Counters (success_count c) (failed_count c) (skipped_count c + 1).

Definition thumb_dir : str := "thumbnails".

(** [f"[{i}/{total}] "] *)
Definition progress (i total : nat) : str :=
  "[" ++ PyStr.str_of_nat i ++ "/" ++ PyStr.str_of_nat total ++ "] ".

(** The body of the loop over [enumerate(videos, 1)]. The title is
    sliced, for the line that announces the processing, before that
    line is printed. *)
Definition process_video {W} `{World W} (i total : nat) (v : video)
    (c : counters) : M W counters :=
  let title := title_of v in
  match str_truthy (url v), str_truthy (identifier v) with
  | Some url, Some identifier =>
      let thumb_filename := identifier ++ ".jpg" in
      let thumb_path := path_join thumb_dir thumb_filename in
      ex <- Path_exists thumb_path ;;
      if ex : bool then
        print (progress i total ++ "⏭ Exists: " ++ thumb_filename) ;;;
        ret (incr_skipped c)
      else
        shown <- lift (title_prefix 60 title) ;;
        print (progress i total ++ "Processing: " ++ shown ++ "...") ;;;
        seek_time <- resolve_seek_time title url ;;
        ok <- generate_thumbnail url thumb_path (Some seek_time) ;;
        if ok : bool then
          print ("  ✓ Saved: " ++ thumb_filename) ;;;
          ret (incr_success c)
        else ret (incr_failed c)
  | _, _ =>
      print (progress i total ++ "⚠ Skipping: missing URL or identifier") ;;;
      ret (incr_skipped c)
  end.

Fixpoint process_videos {W} `{World W} (i total : nat) (videos : list video)
    (c : counters) : M W counters :=
  match videos with
  | [] => ret c
  | v :: rest =>
      c' <- process_video i total v c ;;
      process_videos (S i) total rest c'
  end.

(** What the summary block reports. *)
Record summary : Type := Summary {
  total_videos : nat;
  counts : counters
}.

Definition ffmpeg_version_cmd : list str := ["ffmpeg"; "-version"].

(** The [try] around [ffmpeg -version]. *)
Definition check_ffmpeg {W} `{World W} : M W unit :=
  try_except
    (run_check ffmpeg_version_cmd ;;; ret tt)
    (fun e =>
       match exn_cls e with
       | CalledProcessError | FileNotFoundError => Some
           (print "ERROR: ffmpeg is not installed!" ;;;
            print "Install it with: sudo apt-get install ffmpeg" ;;;
            sys_exit 1)
       | _ => None
       end).

Definition json_path : str := "mp4_downloads.json".

Definition nl : str := String 10%N EmptyString.

Fixpoint str_repeat (s : str) (n : nat) : str :=
  match n with
  | O => EmptyString
  | S n' => s ++ str_repeat s n'
  end.

Definition print_summary {W} `{World W} (total : nat) (c : counters)
    : M W unit :=
  print (nl ++ str_repeat "=" 60) ;;;
  print "SUMMARY" ;;;
  print (str_repeat "=" 60) ;;;
  print ("Total videos:    " ++ PyStr.str_of_nat total) ;;;
  print ("✓ Successful:    " ++ PyStr.str_of_Z (success_count c)) ;;;
  print ("✗ Failed:        " ++ PyStr.str_of_Z (failed_count c)) ;;;
  print ("⏭ Skipped:       " ++ PyStr.str_of_Z (skipped_count c)) ;;;
  dir <- absolute thumb_dir ;;
  print (nl ++ "Thumbnails saved in: " ++ dir).

Definition main {W} `{World W} : M W summary :=
  check_ffmpeg ;;;
  ex <- exists_ json_path ;;
  (if negb ex
   then print ("ERROR: " ++ json_path ++ " not found!") ;;; sys_exit 1
   else ret tt) ;;;
  all_videos <- load_json json_path ;;
  print ("Found " ++ PyStr.str_of_nat (List.length all_videos)
         ++ " total MP4 files") ;;;
  videos <- lift (dedup all_videos) ;;
  let total := List.length videos in
  print ("Deduplicated to " ++ PyStr.str_of_nat total
         ++ " unique videos (1 MP4 per video)") ;;;
  print "Creating thumbnails directory..." ;;;
  mkdir thumb_dir ;;;
  c <- process_videos 1 total videos (Counters 0 0 0) ;;
  print_summary total c ;;;
  ret (Summary total c).

(* ================================================================= *)
(** ** Vocabulary of the statements *)

(** [str(thumb_dir / (identifier + '.jpg'))] *)
Definition thumb_path_of {W} `{World W} (id : str) : str :=
  path_join thumb_dir (id ++ ".jpg").

(** Every key of the dict is the identifier of its record. *)
Definition keyed (d : dict) : Prop :=
  Forall (fun kv => str_truthy (identifier (snd kv)) = Some (fst kv)) d.

(** The startup check fails: the tool is not found, or [ffmpeg
    -version] ends with a status other than 0. *)
Definition tool_missing (answer : res completed) : bool :=
  match answer with
  | Ok c => negb (returncode c =? 0)%Z
  | Err e =>
      match exn_cls e with
      | CalledProcessError | FileNotFoundError => true
      | _ => false
      end
  end.

(** The sum of the three counters. *)
Definition counted (c : counters) : Z :=
  success_count c + failed_count c + skipped_count c.

(** [w] carries the identifier [k]. *)
Definition same_id (k : str) (w : video) : Prop :=
  str_truthy (identifier w) = Some k.

(** [v] is the first of the records of [seen] with identifier [k] whose
    size, measured by [sz], is the smallest: strictly smaller than the
    sizes before it, at most the sizes after it. *)
Definition first_smallest (sz : video -> Z) (v : video) (k : str)
    (seen : list video) : Prop :=
  exists l1 l2,
    seen = (l1 ++ v :: l2)%list
    /\ (forall w, In w l1 -> same_id k w -> sz v < sz w)
    /\ (forall w, In w l2 -> same_id k w -> sz v <= sz w).

(** What the deduplication loop keeps true: the keys are the
    identifiers of their records and are distinct, every record kept
    was seen, and every identifier seen has a record. *)
Definition dedup_inv (d : dict) (seen : list video) : Prop :=
  keyed d
  /\ NoDup (map fst d)
  /\ (forall k v, dict_get k d = Some v -> In v seen)
  /\ (forall w k, In w seen -> same_id k w -> dict_get k d <> None).

(** Every record of the dict is the first smallest of its identifier. *)
Definition min_inv (sz : video -> Z) (d : dict) (seen : list video) : Prop :=
  forall k v, dict_get k d = Some v -> first_smallest sz v k seen.

(** A call of ffmpeg, a call of ffprobe. *)
Definition is_ffmpeg (cl : call) : bool :=
  match fst cl with
  | "ffmpeg" :: _ => true
  | _ => false
  end.

Definition is_ffprobe (cl : call) : bool :=
  match fst cl with
  | "ffprobe" :: _ => true
  | _ => false
  end.

(** [cl] is the probe of the URL of one of the [videos], or an
    extraction from that URL into the thumbnail path of its
    identifier. *)
Definition for_video {W} `{World W} (videos : list video) (cl : call)
    : Prop :=
  exists v u id,
    In v videos
    /\ str_truthy (url v) = Some u
    /\ str_truthy (identifier v) = Some id
    /\ (cl = (ffprobe_cmd u, Some 30)
        \/ exists seek_time,
             cl = (ffmpeg_cmd u (thumb_path_of id) (Some seek_time), Some 60)).

(* ================================================================= *)
(** ** A scripted world, for running the model on concrete inputs *)

Module Sim.

(** The files that exist, what the manifest holds, and what each
    command answers. *)
Record sim : Type := Build {
  files : list str;
  manifest : res (list video);
  answers : list str -> res completed
}.

Definition has_file (p : str) (w : sim) : bool :=
  existsb (PyStr.eqb p) (files w).

(** A completed [ffmpeg -y ...] with status 0 leaves its output file. *)
Definition sim_run (cmd : list str) (timeout : option Z) (w : sim)
    : res completed * sim :=
  let r := answers w cmd in
  match cmd, r with
  | "ffmpeg" :: "-y" :: _, Ok (Completed 0 _ _) =>
      (r, Build (last cmd "" :: files w) (manifest w) (answers w))
  | _, _ => (r, w)
  end.

Definition float_of_Z (z : Z) : float :=
  SF2Prim (binary_normalize prec emax z 0 false).

(** [float(s)] on integer literals only. *)
Definition sim_float (s : str) : res float :=
  match PyStr.int_of_str s with
  | Ok z => Ok (float_of_Z z)
  | Err _ => Err (Exn ValueError "could not convert string to float")
  end.

(** [str(f)] on multiples of one half only. *)
Definition sim_str (f : float) : str :=
  match int_of_float (PrimFloat.mul f 2%float) with
  | Ok z => PyStr.str_of_Z (Z.quot z 2)
            ++ (if Z.even z then ".0" else ".5")
  | Err _ => "nan"
  end.

#[global] Instance sim_world : World sim := {
  subprocess_run := sim_run;
  os_stat := fun p w => if has_file p w then Found else Missing;
  load_mp4_files := fun _ w => manifest w;
  mkdir_exist_ok := fun p w =>
    (Ok tt, Build (p :: files w) (manifest w) (answers w));
  path_join := fun d name => d ++ "/" ++ name;
  path_absolute := fun p _ => Ok ("/srv/" ++ p);
  py_float := sim_float;
  str_float := sim_str
}.

Definition start (w : sim) : state sim := State w [] [].

(** Every tool is installed and every command succeeds, printing
    nothing. *)
Definition all_ok (cmd : list str) : res completed :=
  Ok (Completed 0 "" "").

(** [ffmpeg -version] works, ffprobe prints ["120"], and every
    extraction fails with status 1. *)
Definition extraction_fails (cmd : list str) : res completed :=
  match cmd with
  | "ffmpeg" :: "-version" :: _ => Ok (Completed 0 "" "")
  | "ffprobe" :: _ => Ok (Completed 0 "120" "")
  | _ => Ok (Completed 1 "" "Server returned 404 Not Found")
  end.

(** ffmpeg is not installed. *)
Definition no_tools (cmd : list str) : res completed :=
  Err (Exn FileNotFoundError "No such file or directory: 'ffmpeg'").

(** ffmpeg is installed and extracts, ffprobe fails. *)
Definition probe_fails (cmd : list str) : res completed :=
  match cmd with
  | "ffprobe" :: _ => Ok (Completed 1 "" "Connection refused")
  | _ => Ok (Completed 0 "" "")
  end.

Definition rec_ (id : str) (u : str) (t : str) (sz : Z) : video :=
  Video (Some id) (Some u) None (Some (TitleStr t)) (Some (SizeInt sz)).

(** A manifest with a duplicate, a record with no identifier and a
    record with no URL; every extraction fails. *)
Definition demo_videos : list video :=
  [rec_ "abc" "http://x/a.mp4" "Film (1h 21m, 704x512)" 500;
   rec_ "abc" "http://x/b.mp4" "Film (1h 21m, 704x512)" 200;
   rec_ "d" "http://x/d.mp4" "no duration here" 10;
   Video None (Some "http://x/n.mp4") None None None;
   Video (Some "e") None None None None].

Definition demo : sim :=
  Build ["mp4_downloads.json"] (Ok demo_videos) extraction_fails.

(** A title that parses to zero seconds, and a probe that fails. *)
Definition zero_title : video := rec_ "z" "http://x/z.mp4" "(0m, 320x240)" 10.

Definition zero_world : sim :=
  Build ["mp4_downloads.json"] (Ok [zero_title]) probe_fails.

(** The only record has a URL and no identifier. *)
Definition anonymous_world : sim :=
  Build ["mp4_downloads.json"]
    (Ok [Video None (Some "http://x/n.mp4") None (Some "Film") None]) all_ok.

(** The second record of an identifier has a size that is no integer. *)
Definition bad_size_world : sim :=
  Build ["mp4_downloads.json"]
    (Ok [rec_ "abc" "http://x/a.mp4" "Film" 100;
         Video (Some "abc") (Some "http://x/b.mp4") None (Some "Film")
           (Some (SizeStr "n/a"))])
    all_ok.

(** The manifest exists and is not JSON: [json.load] raises. *)
Definition bad_json_world : sim :=
  Build ["mp4_downloads.json"]
    (Err (Exn ValueError "Expecting value: line 1 column 1 (char 0)")) all_ok.

(** No manifest. *)
Definition no_manifest_world : sim := Build [] (Ok []) all_ok.

(** No ffmpeg. *)
Definition no_tools_world : sim :=
  Build ["mp4_downloads.json"] (Ok demo_videos) no_tools.

(** ffmpeg is there and may not be executed. *)
Definition denied (cmd : list str) : res completed :=
  Err (Exn OSError "[Errno 13] Permission denied: 'ffmpeg'").

Definition denied_world : sim :=
  Build ["mp4_downloads.json"] (Ok demo_videos) denied.

(** What [dedup] keeps of the demo manifest. *)
Definition demo_kept : list video :=
  [rec_ "abc" "http://x/b.mp4" "Film (1h 21m, 704x512)" 200;
   rec_ "d" "http://x/d.mp4" "no duration here" 10;
   Video (Some "e") None None None None].

(** The demo manifest after a run in which every extraction worked. *)
Definition rerun_world : sim :=
  Build ["thumbnails/d.jpg"; "thumbnails/abc.jpg"; "thumbnails";
         "mp4_downloads.json"]
    (Ok demo_videos) all_ok.

(** A title of 400 nines of minutes. *)
Definition endless : video :=
  rec_ "h" "http://x/h.mp4" ("(" ++ str_repeat "9" 400 ++ "m, 320x240)") 10.

Definition endless_world : sim :=
  Build ["mp4_downloads.json"] (Ok [endless]) all_ok.

(** A title of 4301 zeros of minutes: one digit more than [int] takes. *)
Definition long_number : str := "(" ++ str_repeat "0" 4301 ++ "m, 320x240)".


(** A file system that answers every [os.stat] with ENAMETOOLONG, the
    error of Linux for a name of more than 255 bytes; every command
    succeeds. *)
Inductive jammed : Type := Jammed.

#[global] Instance jammed_world : World jammed | 10 := {
  subprocess_run := fun _ _ w => (Ok (Completed 0 "" ""), w);
  os_stat := fun _ _ =>
    StatError (Exn OSError "[Errno 36] File name too long");
  load_mp4_files := fun _ _ => Ok [];
  mkdir_exist_ok := fun _ w => (Ok tt, w);
  path_join := fun d name => d ++ "/" ++ name;
  path_absolute := fun p _ => Ok ("/srv/" ++ p);
  py_float := sim_float;
  str_float := sim_str
}.

End Sim.

(* ================================================================= *)
(** ** Duration tokens, as the specification words them *)

Module Token.

Fixpoint all (p : char -> bool) (s : str) : bool :=
  match s with
  | EmptyString => true
  | String c r => p c && all p r
  end.

(** A number: one digit or more. *)
Definition is_number (s : str) : bool :=
  match s with
  | EmptyString => false
  | _ => all PyStr.is_digit s
  end.

Definition is_blank (s : str) : bool := all PyStr.is_space s.

(** The value of a decimal numeral. *)
Fixpoint decimal_from (acc : Z) (s : str) : Z :=
  match s with
  | EmptyString => acc
  | String c r => decimal_from (acc * 10 + PyStr.digit_val c) r
  end.

Definition decimal (s : str) : Z := decimal_from 0 s.

(** [s] starts with a [p]-character. *)
Definition headed (p : char -> bool) (s : str) : bool :=
  match s with
  | String c _ => p c
  | EmptyString => false
  end.

(** What is left of [s] after its longest prefix of [p]-characters. *)
Fixpoint skip (p : char -> bool) (s : str) : str :=
  match s with
  | String c r => if p c then skip p r else s
  | EmptyString => EmptyString
  end.

(** A token [(<N>h <N>m <N>s,]: the hours (with the blanks after the
    [h]) and the seconds are optional; blanks may follow the [m]. *)
Record token : Type := Build {
  hours : option (str * str);
  minutes : str;
  gap : str;
  seconds : option str
}.

Definition well_formed (t : token) : bool :=
  match hours t with
  | Some (d, w) => is_number d && is_blank w
  | None => true
  end
  && is_number (minutes t)
  && is_blank (gap t)
  && match seconds t with
     | Some d => is_number d
     | None => true
     end.

Definition hours_text (t : token) : str :=
  match hours t with
  | Some (d, w) => d ++ "h" ++ w
  | None => ""
  end.

Definition seconds_text (t : token) : str :=
  match seconds t with
  | Some d => d ++ "s"
  | None => ""
  end.

Definition text (t : token) : str :=
  "(" ++ hours_text t ++ minutes t ++ "m" ++ gap t ++ seconds_text t ++ ",".

(** [H*3600 + M*60 + S] *)
Definition value (t : token) : Z :=
  match hours t with
  | Some (d, _) => decimal d
  | None => 0
  end * 3600
  + decimal (minutes t) * 60
  + match seconds t with
    | Some d => decimal d
    | None => 0
    end.

(** No number of the token has more digits than [int] takes. *)
Definition within_limit (t : token) : bool :=
  match hours t with
  | Some (d, _) => (PyStr.length d <=? PyStr.int_max_str_digits)%nat
  | None => true
  end
  && (PyStr.length (minutes t) <=? PyStr.int_max_str_digits)%nat
  && match seconds t with
     | Some d => (PyStr.length d <=? PyStr.int_max_str_digits)%nat
     | None => true
     end.

(** What the three groups capture on a token. *)
Definition seconds_capture (t : token) : Re.groups :=
  match seconds t with
  | Some d => [(3%nat, d ++ "s")]
  | None => []
  end.

Definition hours_capture (t : token) : Re.groups :=
  match hours t with
  | Some (d, w) => [(1%nat, d ++ "h" ++ w)]
  | None => []
  end.

Definition captures (t : token) : Re.groups :=
  List.app (seconds_capture t) ((2%nat, minutes t ++ "m") :: hours_capture t).

(** [title] holds the token [t] after [n] characters. *)
Definition occurs_at (t : token) (n : nat) (title : str) : Prop :=
  exists pre post,
    title = pre ++ text t ++ post /\ PyStr.length pre = n.

End Token.

(* ================================================================= *)
(** * Properties *)

(** ** Characters and strings *)

Lemma char_eqb_eq (a b : char) : char_eqb a b = true <-> a = b.
Proof. apply N.eqb_eq. Qed.

Lemma char_eqb_refl (a : char) : char_eqb a a = true.
Proof. apply N.eqb_refl. Qed.

Lemma str_eqb_eq s t : PyStr.eqb s t = true <-> s = t.
Proof.
  revert t. induction s as [| a s IH]; intros [| b t]; simpl;
    try (split; [discriminate | discriminate]); [tauto |].
  rewrite andb_true_iff, char_eqb_eq, IH. split.
  - intros [-> ->]. reflexivity.
  - intros H. inversion H. auto.
Qed.

Lemma str_eqb_refl s : PyStr.eqb s s = true.
Proof. now apply str_eqb_eq. Qed.

Lemma str_eqb_neq s t : PyStr.eqb s t = false <-> s <> t.
Proof.
  rewrite <- str_eqb_eq. destruct (PyStr.eqb s t); split; congruence.
Qed.

(** No whitespace character is a decimal digit. *)
Lemma whitespace_no_digit :
  forallb (fun c => negb (PyStr.is_digit c)) PyStr.whitespace = true.
Proof. vm_compute. reflexivity. Qed.

Lemma space_not_digit c : PyStr.is_space c = true -> PyStr.is_digit c = false.
Proof.
  unfold PyStr.is_space. intros H. apply existsb_exists in H.
  destruct H as (x & Hin & Hx). apply N.eqb_eq in Hx. subst x.
  pose proof whitespace_no_digit as Hall.
  rewrite forallb_forall in Hall. apply negb_true_iff. now apply Hall.
Qed.

Lemma digit_not_space c : PyStr.is_digit c = true -> PyStr.is_space c = false.
Proof.
  intros H. destruct (PyStr.is_space c) eqn:E; [| reflexivity].
  apply space_not_digit in E. congruence.
Qed.

(** A character that is equal to one that is no digit is no digit. *)
Lemma digit_differs c x :
  PyStr.is_digit c = true -> PyStr.is_digit x = false -> char_eqb c x = false.
Proof.
  intros Hc Hx. destruct (char_eqb c x) eqn:E; [| reflexivity].
  apply char_eqb_eq in E. congruence.
Qed.

Lemma digit_not_letter c :
  PyStr.is_digit c = true ->
  char_eqb c "h" = false /\ char_eqb c "m" = false /\
  char_eqb c "s" = false /\ char_eqb c "," = false /\
  char_eqb c "_" = false /\ char_eqb c "+" = false /\
  char_eqb c "-" = false.
Proof.
  intros H. repeat split; now apply digit_differs.
Qed.

Lemma space_not_comma c : PyStr.is_space c = true -> char_eqb c "," = false.
Proof.
  intros H. destruct (char_eqb c ",") eqn:E; [| reflexivity].
  apply char_eqb_eq in E. subst c. discriminate H.
Qed.

Lemma decimal_in_range zeros c d :
  PyStr.decimal_in zeros c = Some d -> 0 <= d <= 9.
Proof.
  induction zeros as [| z rest IH]; simpl; [discriminate |].
  destruct ((z <=? c) && (c <? z + 10))%N eqn:E; [| exact IH].
  apply andb_true_iff in E. destruct E as [E1 E2].
  apply N.leb_le in E1. apply N.ltb_lt in E2.
  intros H. inversion H. lia.
Qed.

(** The value of a digit is between 0 and 9. *)
Lemma digit_val_range c : 0 <= PyStr.digit_val c <= 9.
Proof.
  unfold PyStr.digit_val, PyStr.decimal_value.
  destruct (PyStr.decimal_in PyStr.digit_zeros c) as [d |] eqn:E; [| lia].
  now apply decimal_in_range in E.
Qed.

Lemma str_app_assoc (a b c : str) : (a ++ b) ++ c = a ++ b ++ c.
Proof. induction a; simpl; congruence. Qed.

Lemma str_app_nil_r (a : str) : a ++ "" = a.
Proof. induction a; simpl; congruence. Qed.

Lemma str_length_app (a b : str) :
  PyStr.length (a ++ b) = (PyStr.length a + PyStr.length b)%nat.
Proof. induction a; simpl; congruence. Qed.

Lemma consumed_app (w s : str) : Re.consumed (w ++ s) s = w.
Proof.
  unfold Re.consumed. rewrite str_length_app.
  replace (PyStr.length w + PyStr.length s - PyStr.length s)%nat
    with (PyStr.length w) by lia.
  induction w; simpl.
  - destruct s; reflexivity.
  - now rewrite IHw.
Qed.

(** ** The matcher *)

(** A successful match consumed a word of the language of the regex,
    and the continuation succeeded on what was left. *)
Lemma rmatch_sound (A : Type) (r : Re.regex) :
  forall (s : str) (g : Re.groups) (k : str -> Re.groups -> option A) x,
    Re.rmatch r s g k = Some x ->
    exists w s' g', s = w ++ s' /\ Re.lang r w /\ k s' g' = Some x.
Proof.
  induction r as [c | p | r1 IH1 r2 IH2 | r0 IH | r0 IH | i r0 IH];
    intros s g k x Hm.
  - destruct s as [| a s']; simpl in Hm; [discriminate |].
    destruct (char_eqb a c) eqn:E; [| discriminate].
    apply char_eqb_eq in E. subst a.
    exists (String c ""), s', g. repeat split; auto. constructor.
  - destruct s as [| a s']; simpl in Hm; [discriminate |].
    destruct (p a) eqn:E; [| discriminate].
    exists (String a ""), s', g. repeat split; auto. now constructor.
  - simpl in Hm.
    apply IH1 in Hm. destruct Hm as (w1 & s1 & g1 & -> & L1 & Hm).
    apply IH2 in Hm. destruct Hm as (w2 & s2 & g2 & -> & L2 & Hm).
    exists (w1 ++ w2), s2, g2. rewrite str_app_assoc.
    repeat split; auto. now constructor.
  - simpl in Hm. revert Hm. generalize (PyStr.length s) as n.
    intros n. revert s g.
    induction n as [| n IHn]; intros s g Hm.
    + exists "", s, g. repeat split; auto. constructor.
    + match type of Hm with
      | match ?m with _ => _ end = _ => destruct m as [y |] eqn:E
      end.
      * inversion Hm; subst y. clear Hm.
        apply IH in E. destruct E as (w1 & s1 & g1 & -> & L1 & E).
        destruct (PyStr.length s1 <? PyStr.length (w1 ++ s1))%nat;
          [| discriminate].
        apply IHn in E. destruct E as (w2 & s2 & g2 & -> & L2 & E).
        exists (w1 ++ w2), s2, g2. rewrite str_app_assoc.
        repeat split; auto. now constructor.
      * exists "", s, g. repeat split; auto. constructor.
  - simpl in Hm.
    destruct (Re.rmatch r0 s g k) as [y |] eqn:E.
    + inversion Hm; subst y. apply IH in E.
      destruct E as (w & s' & g' & -> & L & E).
      exists w, s', g'. repeat split; auto. now constructor.
    + exists "", s, g. repeat split; auto. constructor.
  - simpl in Hm. apply IH in Hm.
    destruct Hm as (w & s' & g' & -> & L & Hm).
    eexists w, s', _. repeat split; eauto. now constructor.
Qed.

Lemma star_cls_more (A : Type) p c s g (k : str -> Re.groups -> option A) :
  p c = true ->
  Re.rmatch (Re.Star (Re.Cls p)) (String c s) g k =
  match Re.rmatch (Re.Star (Re.Cls p)) s g k with
  | Some x => Some x
  | None => k (String c s) g
  end.
Proof.
  intros Hp. simpl. rewrite Hp.
  replace (PyStr.length s <? S (PyStr.length s))%nat with true
    by (symmetry; apply Nat.ltb_lt; lia).
  reflexivity.
Qed.

Lemma star_cls_stop (A : Type) p s g (k : str -> Re.groups -> option A) :
  Token.headed p s = false ->
  Re.rmatch (Re.Star (Re.Cls p)) s g k = k s g.
Proof.
  destruct s as [| c s]; intros Hp; simpl in *; [reflexivity |].
  now rewrite Hp.
Qed.

(** A greedy run of one character class gives nothing back when the
    continuation cannot start with a character of the class. *)
Lemma star_cls_greedy (A : Type) p (k : str -> Re.groups -> option A) :
  (forall c s g, p c = true -> k (String c s) g = None) ->
  forall s g, Re.rmatch (Re.Star (Re.Cls p)) s g k = k (Token.skip p s) g.
Proof.
  intros Hk s g. induction s as [| c s IH].
  - reflexivity.
  - destruct (p c) eqn:Hp.
    + rewrite star_cls_more by assumption. rewrite IH. simpl. rewrite Hp.
      destruct (k (Token.skip p s) g) eqn:E; [reflexivity |].
      now apply Hk.
    + rewrite star_cls_stop by assumption. simpl. now rewrite Hp.
Qed.

Lemma plus_cls_greedy (A : Type) p (k : str -> Re.groups -> option A) :
  (forall c s g, p c = true -> k (String c s) g = None) ->
  forall s g,
    Re.rmatch (Re.Plus (Re.Cls p)) s g k =
    match s with
    | String c r => if p c then k (Token.skip p r) g else None
    | EmptyString => None
    end.
Proof.
  intros Hk s g. unfold Re.Plus.
  change (Re.rmatch (Re.Seq (Re.Cls p) (Re.Star (Re.Cls p))) s g k)
    with (Re.rmatch (Re.Cls p) s g
            (fun s' g' => Re.rmatch (Re.Star (Re.Cls p)) s' g' k)).
  destruct s as [| c r]; [reflexivity |].
  change (Re.rmatch (Re.Cls p) (String c r) g
            (fun s' g' => Re.rmatch (Re.Star (Re.Cls p)) s' g' k))
    with (if p c then Re.rmatch (Re.Star (Re.Cls p)) r g k else None).
  destruct (p c); [| reflexivity].
  now apply star_cls_greedy.
Qed.

Lemma skip_all p w s :
  Token.all p w = true ->
  Token.headed p s = false ->
  Token.skip p (w ++ s) = s.
Proof.
  intros Hw Hs. induction w as [| c w IH]; simpl in *.
  - destruct s as [| c s]; [reflexivity |]. simpl in *. now rewrite Hs.
  - apply andb_true_iff in Hw. destruct Hw as [Hc Hw].
    rewrite Hc. auto.
Qed.

Lemma plus_digit_number (A : Type) (k : str -> Re.groups -> option A)
    ds rest g :
  Token.is_number ds = true ->
  Token.headed PyStr.is_digit rest = false ->
  (forall c s g, PyStr.is_digit c = true -> k (String c s) g = None) ->
  Re.rmatch (Re.Plus (Re.Cls PyStr.is_digit)) (ds ++ rest) g k = k rest g.
Proof.
  intros Hds Hrest Hk. rewrite plus_cls_greedy by assumption.
  destruct ds as [| c ds]; [discriminate |].
  simpl in Hds. apply andb_true_iff in Hds. destruct Hds as [Hc Hds].
  simpl. rewrite Hc. now rewrite skip_all.
Qed.

Lemma star_space_blank (A : Type) (k : str -> Re.groups -> option A)
    w rest g :
  Token.is_blank w = true ->
  Token.headed PyStr.is_space rest = false ->
  (forall c s g, PyStr.is_space c = true -> k (String c s) g = None) ->
  Re.rmatch (Re.Star (Re.Cls PyStr.is_space)) (w ++ rest) g k = k rest g.
Proof.
  intros Hw Hrest Hk. rewrite star_cls_greedy by assumption.
  now rewrite skip_all.
Qed.

Section Unfolding.
Context {A : Type}.
Implicit Types (k : str -> Re.groups -> option A).

Lemma rm_seq r1 r2 s g k :
  Re.rmatch (Re.Seq r1 r2) s g k =
  Re.rmatch r1 s g (fun s' g' => Re.rmatch r2 s' g' k).
Proof. reflexivity. Qed.

Lemma rm_group i r s g k :
  Re.rmatch (Re.Group i r) s g k =
  Re.rmatch r s g (fun s' g' => k s' ((i, Re.consumed s s') :: g')).
Proof. reflexivity. Qed.

Lemma rm_opt r s g k :
  Re.rmatch (Re.Opt r) s g k =
  match Re.rmatch r s g k with Some x => Some x | None => k s g end.
Proof. reflexivity. Qed.

Lemma rm_lit c s g k :
  Re.rmatch (Re.Lit c) s g k =
  match s with
  | String x s' => if char_eqb x c then k s' g else None
  | EmptyString => None
  end.
Proof. reflexivity. Qed.

Lemma plus_cls_fail p s g k :
  Token.headed p s = false ->
  Re.rmatch (Re.Plus (Re.Cls p)) s g k = None.
Proof.
  destruct s as [| c s]; [reflexivity |]. simpl. intros H. now rewrite H.
Qed.

End Unfolding.

(** ** The pattern on a token *)

Lemma number_headed d s :
  Token.is_number d = true -> Token.headed PyStr.is_digit (d ++ s) = true.
Proof.
  destruct d; [discriminate |]. simpl. intros H.
  now apply andb_true_iff in H.
Qed.

Lemma number_not_blank d s :
  Token.is_number d = true -> Token.headed PyStr.is_space (d ++ s) = false.
Proof.
  destruct d as [| c d]; [discriminate |]. simpl. intros H.
  apply andb_true_iff in H. now apply digit_not_space.
Qed.

Lemma digit_fails_lit (c x : char) s g
    (k : str -> Re.groups -> option Re.groups) :
  PyStr.is_digit c = true -> PyStr.is_digit x = false ->
  Re.rmatch (Re.Lit x) (String c s) g k = None.
Proof.
  intros Hc Hx. rewrite rm_lit.
  destruct (char_eqb c x) eqn:E; [| reflexivity].
  apply char_eqb_eq in E. congruence.
Qed.

Lemma tail_match t post g :
  Token.well_formed t = true ->
  Re.rmatch tail_pattern
    (Token.minutes t ++
     String "m" (Token.gap t ++ Token.seconds_text t ++ String "," post))
    g Re.accept
  = Some (List.app (Token.seconds_capture t)
                   ((2%nat, Token.minutes t ++ "m") :: g)).
Proof.
  unfold Token.well_formed, Token.seconds_text, Token.seconds_capture.
  destruct t as [hrs dm w2 sec].
  cbn [Token.hours Token.minutes Token.gap Token.seconds].
  intros Hwf. repeat (apply andb_true_iff in Hwf; destruct Hwf as [Hwf ?]).
  unfold tail_pattern, minutes_group, seconds_group.
  rewrite rm_seq, rm_group, rm_seq.
  rewrite plus_digit_number; try assumption; try reflexivity.
  2:{ intros c s g0 Hc. now apply digit_fails_lit. }
  rewrite rm_lit. rewrite char_eqb_refl.
  rewrite rm_seq.
  rewrite star_space_blank; try assumption.
  2:{ destruct sec as [d |]; [| reflexivity].
      rewrite str_app_assoc. now apply number_not_blank. }
  2:{ intros c s g0 Hc. rewrite rm_seq, rm_opt, rm_group, rm_seq.
      rewrite plus_cls_fail by (simpl; now apply space_not_digit).
      rewrite rm_lit. now rewrite space_not_comma. }
  rewrite rm_seq, rm_opt, rm_group, rm_seq.
  match goal with
  | |- context [Re.consumed (dm ++ String "m" ?r) ?r] =>
      change (dm ++ String "m" r) with (dm ++ "m" ++ r);
      rewrite <- (str_app_assoc dm "m" r), consumed_app
  end.
  destruct sec as [d |].
  - rewrite str_app_assoc. simpl (append "s" _).
    rewrite plus_digit_number; try assumption; try reflexivity.
    2:{ intros c s g0 Hc. now apply digit_fails_lit. }
    rewrite rm_lit. rewrite char_eqb_refl.
    rewrite rm_lit. rewrite char_eqb_refl.
    unfold Re.accept.
    change (d ++ String "s" (String "," post))
      with (d ++ "s" ++ String "," post).
    rewrite <- str_app_assoc, consumed_app. reflexivity.
  - simpl (append "" _).
    rewrite plus_cls_fail by reflexivity.
    rewrite rm_lit. reflexivity.
Qed.

Lemma text_app t post :
  Token.text t ++ post =
  String "(" (Token.hours_text t ++ Token.minutes t ++
              String "m" (Token.gap t ++ Token.seconds_text t
                          ++ String "," post)).
Proof.
  unfold Token.text. simpl. f_equal.
  repeat (rewrite str_app_assoc; simpl). reflexivity.
Qed.

(** On a well-formed token the pattern matches and captures the parts
    of the token. *)
Lemma token_match t post :
  Token.well_formed t = true ->
  Re.re_match duration_pattern (Token.text t ++ post) = Some (Token.captures t).
Proof.
  intros Hwf. rewrite text_app. unfold Re.re_match, duration_pattern.
  rewrite rm_seq, rm_lit. rewrite char_eqb_refl.
  rewrite rm_seq, rm_opt. unfold hours_group at 1.
  rewrite rm_group, rm_seq.
  pose proof Hwf as Hparts. unfold Token.well_formed in Hparts.
  repeat (apply andb_true_iff in Hparts; destruct Hparts as [Hparts ?]).
  unfold Token.captures, Token.hours_capture, Token.hours_text.
  destruct (Token.hours t) as [[d w] |].
  - apply andb_true_iff in Hparts. destruct Hparts as [Hd Hw].
    rewrite str_app_assoc. cbn [append].
    rewrite plus_digit_number; try assumption; try reflexivity.
    2:{ intros c s g0 Hc. rewrite rm_seq. now apply digit_fails_lit. }
    rewrite rm_seq, rm_lit. rewrite char_eqb_refl.
    rewrite star_space_blank; try assumption.
    2:{ now apply number_not_blank. }
    2:{ intros c s g0 Hc. unfold tail_pattern, minutes_group.
        rewrite rm_seq, rm_group, rm_seq.
        apply plus_cls_fail. simpl. now apply space_not_digit. }
    rewrite tail_match by assumption.
    match goal with
    | |- context [Re.consumed (d ++ String "h" (w ++ ?r)) ?r] =>
        change (d ++ String "h" (w ++ r)) with (d ++ "h" ++ w ++ r);
        rewrite <- (str_app_assoc "h" w r), <- (str_app_assoc d ("h" ++ w) r),
          consumed_app
    end.
    reflexivity.
  - simpl (append "" _).
    rewrite plus_digit_number; try assumption; try reflexivity.
    2:{ intros c s g0 Hc. rewrite rm_seq. now apply digit_fails_lit. }
    rewrite rm_seq, rm_lit. change (char_eqb "m" "h") with false. cbv iota.
    now apply tail_match.
Qed.

(** ** The words of the pattern are the tokens *)

Lemma lang_seq_inv r1 r2 w :
  Re.lang (Re.Seq r1 r2) w ->
  exists w1 w2, w = w1 ++ w2 /\ Re.lang r1 w1 /\ Re.lang r2 w2.
Proof. inversion 1; subst; eauto. Qed.

Lemma lang_lit_inv c w : Re.lang (Re.Lit c) w -> w = String c "".
Proof. now inversion 1. Qed.

Lemma lang_opt_inv r w : Re.lang (Re.Opt r) w -> w = "" \/ Re.lang r w.
Proof. inversion 1; subst; auto. Qed.

Lemma lang_group_inv i r w : Re.lang (Re.Group i r) w -> Re.lang r w.
Proof. now inversion 1. Qed.

Lemma lang_star_cls p w :
  Re.lang (Re.Star (Re.Cls p)) w -> Token.all p w = true.
Proof.
  intros H. remember (Re.Star (Re.Cls p)) as r eqn:Hr.
  induction H; try discriminate.
  - reflexivity.
  - inversion Hr; subst r. clear Hr.
    inversion H; subst. simpl.
    rewrite IHlang2 by reflexivity. now rewrite andb_true_r.
Qed.

Lemma lang_plus_digit w :
  Re.lang (Re.Plus (Re.Cls PyStr.is_digit)) w -> Token.is_number w = true.
Proof.
  intros H. apply lang_seq_inv in H. destruct H as (w1 & w2 & -> & H1 & H2).
  inversion H1; subst. apply lang_star_cls in H2.
  simpl. now rewrite H2, andb_true_r.
Qed.

Lemma lang_unit_group i (u : char) w :
  Re.lang (Re.Group i (Re.Seq (Re.Plus (Re.Cls PyStr.is_digit)) (Re.Lit u))) w ->
  exists d, w = d ++ String u "" /\ Token.is_number d = true.
Proof.
  intros H. apply lang_group_inv, lang_seq_inv in H.
  destruct H as (d & x & -> & Hd & Hx).
  apply lang_lit_inv in Hx. subst x.
  exists d. split; [reflexivity |]. now apply lang_plus_digit.
Qed.

Lemma lang_duration_token w :
  Re.lang duration_pattern w ->
  exists t, Token.well_formed t = true /\ w = Token.text t.
Proof.
  unfold duration_pattern, tail_pattern. intros H.
  apply lang_seq_inv in H. destruct H as (wp & w1 & -> & Hp & H).
  apply lang_lit_inv in Hp. subst wp.
  apply lang_seq_inv in H. destruct H as (wh & w2 & -> & Hh & H).
  apply lang_seq_inv in H. destruct H as (wm & w3 & -> & Hm & H).
  apply lang_seq_inv in H. destruct H as (wg & w4 & -> & Hg & H).
  apply lang_seq_inv in H. destruct H as (ws & wc & -> & Hs & Hc).
  apply lang_lit_inv in Hc. subst wc.
  apply lang_unit_group in Hm. destruct Hm as (dm & -> & Hdm).
  apply lang_star_cls in Hg.
  assert (exists sec, ws = Token.seconds_text (Token.Build None "" "" sec) /\
                      match sec with
                      | Some d => Token.is_number d
                      | None => true
                      end = true) as (sec & -> & Hsec).
  { apply lang_opt_inv in Hs. destruct Hs as [-> | Hs].
    - now exists None.
    - apply lang_unit_group in Hs. destruct Hs as (d & -> & Hd).
      now exists (Some d). }
  assert (exists hrs, wh = Token.hours_text (Token.Build hrs "" "" None) /\
                      match hrs with
                      | Some (d, b) => Token.is_number d && Token.is_blank b
                      | None => true
                      end = true) as (hrs & -> & Hhrs).
  { apply lang_opt_inv in Hh. destruct Hh as [-> | Hh].
    - now exists None.
    - apply lang_group_inv, lang_seq_inv in Hh.
      destruct Hh as (d & x & -> & Hd & Hx).
      apply lang_seq_inv in Hx. destruct Hx as (y & b & -> & Hy & Hb).
      apply lang_lit_inv in Hy. subst y.
      apply lang_plus_digit in Hd. apply lang_star_cls in Hb.
      exists (Some (d, b)). split; [reflexivity |].
      unfold Token.is_blank. now rewrite Hd, Hb. }
  exists (Token.Build hrs dm wg sec). split.
  - unfold Token.well_formed, Token.is_blank in *.
    cbn [Token.hours Token.minutes Token.gap Token.seconds].
    rewrite Hdm, Hg, Hsec, !andb_true_r. exact Hhrs.
  - unfold Token.text, Token.hours_text, Token.seconds_text. simpl.
    f_equal. repeat (rewrite str_app_assoc; simpl). reflexivity.
Qed.

(** A match anchored at the start of [s] is a match of a token. *)
Lemma match_is_token s g :
  Re.re_match duration_pattern s = Some g ->
  exists t post, Token.well_formed t = true /\ s = Token.text t ++ post.
Proof.
  unfold Re.re_match. intros H. apply rmatch_sound in H.
  destruct H as (w & post & g' & -> & L & _).
  apply lang_duration_token in L. destruct L as (t & Hwf & ->).
  now exists t, post.
Qed.

Lemma search_here r s g :
  Re.re_match r s = Some g -> Re.re_search r s = Some g.
Proof. intros H. destruct s; simpl; now rewrite H. Qed.

Lemma search_next r c s :
  Re.re_match r (String c s) = None ->
  Re.re_search r (String c s) = Re.re_search r s.
Proof. intros H. simpl. now rewrite H. Qed.

Lemma search_none r s :
  (forall pre post, s = pre ++ post -> Re.re_match r post = None) ->
  Re.re_search r s = None.
Proof.
  induction s as [| c s IH]; intros H.
  - simpl. now rewrite (H "" "").
  - rewrite search_next by (now apply (H "")).
    apply IH. intros pre post ->. now apply (H (String c pre)).
Qed.

(** ** From the captured text to seconds *)

Lemma all_impl (p q : char -> bool) s :
  (forall c, p c = true -> q c = true) ->
  Token.all p s = true -> Token.all q s = true.
Proof.
  intros Hpq. induction s as [| c s IH]; simpl; [reflexivity |].
  intros H. apply andb_true_iff in H. destruct H as [Hc Hs].
  now rewrite (Hpq c Hc), IH.
Qed.

Lemma remove_char_app u a b :
  PyStr.remove_char u (a ++ b) = PyStr.remove_char u a ++ PyStr.remove_char u b.
Proof.
  induction a as [| c a IH]; simpl; [reflexivity |].
  rewrite IH. now destruct (char_eqb c u).
Qed.

Lemma remove_char_absent u s :
  Token.all (fun c => negb (char_eqb c u)) s = true ->
  PyStr.remove_char u s = s.
Proof.
  induction s as [| c s IH]; simpl; [reflexivity |].
  intros H. apply andb_true_iff in H. destruct H as [Hc Hs].
  apply negb_true_iff in Hc. rewrite Hc. now rewrite IH.
Qed.

Lemma rstrip_blank w : Token.is_blank w = true -> PyStr.rstrip w = "".
Proof.
  unfold Token.is_blank. induction w as [| c w IH]; simpl; [reflexivity |].
  intros H. apply andb_true_iff in H. destruct H as [Hc Hw].
  now rewrite IH, Hc.
Qed.

Lemma rstrip_number_blank d w :
  Token.all PyStr.is_digit d = true -> Token.is_blank w = true ->
  PyStr.rstrip (d ++ w) = d.
Proof.
  intros Hd Hw. induction d as [| c d IH]; simpl.
  - now apply rstrip_blank.
  - simpl in Hd. apply andb_true_iff in Hd. destruct Hd as [Hc Hd].
    rewrite IH by assumption.
    destruct d; [| reflexivity].
    now rewrite (digit_not_space c Hc).
Qed.

Lemma strip_number_blank d w :
  Token.is_number d = true -> Token.is_blank w = true ->
  PyStr.strip (d ++ w) = d.
Proof.
  intros Hd Hw. unfold PyStr.strip.
  destruct d as [| c d]; [discriminate |].
  simpl in Hd. pose proof Hd as Hd'.
  apply andb_true_iff in Hd'. destruct Hd' as [Hc _].
  simpl PyStr.lstrip. rewrite (digit_not_space c Hc).
  now apply (rstrip_number_blank (String c d) w).
Qed.

(** On a run of digits [int_scan] reads them all. *)
Lemma int_scan_digits d :
  Token.all PyStr.is_digit d = true ->
  forall acc n,
    PyStr.int_scan acc n d
    = Ok (Token.decimal_from acc d, (n + PyStr.length d)%nat, "").
Proof.
  induction d as [| c d IH]; simpl; intros H acc n.
  - now rewrite Nat.add_0_r.
  - apply andb_true_iff in H. destruct H as [Hc Hd].
    rewrite Hc, IH by assumption. now rewrite Nat.add_succ_r.
Qed.

(** [int] on a number: its value, unless it has more digits than
    [int] takes. *)
Lemma int_of_str_number d :
  Token.is_number d = true ->
  PyStr.int_of_str d =
  if (PyStr.length d <=? PyStr.int_max_str_digits)%nat
  then Ok (Token.decimal d) else Err PyStr.too_many_digits.
Proof.
  intros Hd. unfold PyStr.int_of_str.
  destruct d as [| c d]; [discriminate |].
  simpl in Hd. pose proof Hd as Hall.
  apply andb_true_iff in Hd. destruct Hd as [Hc Hd].
  assert (Hsp : PyStr.is_int_space c = false)
    by (unfold PyStr.is_int_space; now rewrite (digit_not_space c Hc)).
  cbn [PyStr.skip_int_space]. rewrite Hsp.
  destruct (digit_not_letter c Hc) as (_ & _ & _ & _ & _ & -> & ->).
  cbn [snd fst].
  rewrite (@int_scan_digits (String c d) Hall 0 0%nat). cbn [res_bind].
  rewrite Nat.add_0_l, Nat.ltb_antisym.
  destruct (PyStr.length (String c d) <=? PyStr.int_max_str_digits)%nat;
    reflexivity.
Qed.

(** One unit of a token: digits, the unit letter, blanks. *)
Lemma add_part_unit (u : char) d w factor total :
  PyStr.is_digit u = false -> PyStr.is_space u = false ->
  Token.is_number d = true -> Token.is_blank w = true ->
  add_part (Some (d ++ String u w)) u factor total
  = if (PyStr.length d <=? PyStr.int_max_str_digits)%nat
    then Ok (total + Token.decimal d * factor)
    else Err PyStr.too_many_digits.
Proof.
  intros Hud Hus Hd Hw. unfold add_part.
  assert (all_d : Token.all PyStr.is_digit d = true)
    by (destruct d; [discriminate | exact Hd]).
  replace (group_truthy (Some (d ++ String u w)))
    with (Some (d ++ String u w))
    by (destruct d; [discriminate | reflexivity]).
  rewrite remove_char_app. simpl PyStr.remove_char at 2.
  rewrite char_eqb_refl.
  rewrite !remove_char_absent.
  - rewrite strip_number_blank by assumption.
    unfold py_int_str. rewrite int_of_str_number by assumption.
    now destruct (PyStr.length d <=? PyStr.int_max_str_digits)%nat.
  - apply (all_impl PyStr.is_space); [| exact Hw].
    intros c Hc. apply negb_true_iff.
    destruct (char_eqb c u) eqn:E; [| reflexivity].
    apply char_eqb_eq in E. congruence.
  - apply (all_impl PyStr.is_digit); [| exact all_d].
    intros c Hc. apply negb_true_iff. now apply digit_differs.
Qed.

(** The arithmetic of [parse_duration] on the captures of a token: the
    value of the token, unless one of its numbers has more digits than
    [int] takes. *)
Lemma captures_seconds t :
  Token.well_formed t = true ->
  let mt := Token.captures t in
  res_bind (add_part (Re.group 1 mt) "h" 3600 0) (fun total_seconds =>
  res_bind (add_part (Re.group 2 mt) "m" 60 total_seconds) (fun total_seconds =>
  res_bind (add_part (Re.group 3 mt) "s" 1 total_seconds) (fun total_seconds =>
  Ok (Some total_seconds))))
  = if Token.within_limit t then Ok (Some (Token.value t))
    else Err PyStr.too_many_digits.
Proof.
  intros Hwf. unfold Token.well_formed in Hwf.
  repeat (apply andb_true_iff in Hwf; destruct Hwf as [Hwf ?]).
  unfold Token.captures, Token.hours_capture, Token.seconds_capture,
    Token.value, Token.within_limit.
  destruct t as [hrs dm gp sec].
  cbn [Token.hours Token.minutes Token.gap Token.seconds] in *.
  destruct hrs as [[d w] |], sec as [ds |]; cbn [List.app Re.group Nat.eqb];
    try (apply andb_true_iff in Hwf; destruct Hwf as [Hd Hw]).
  all: cbn [append].
  all: repeat match goal with
       | |- context [(PyStr.length ?x <=? PyStr.int_max_str_digits)%nat] =>
           destruct (PyStr.length x <=? PyStr.int_max_str_digits)%nat eqn:?
       end.
  all: repeat first
    [ rewrite (@add_part_unit "h") by (assumption || reflexivity)
    | rewrite (@add_part_unit "m") by (assumption || reflexivity)
    | rewrite (@add_part_unit "s") by (assumption || reflexivity)
    | match goal with
      | E : (_ <=? _)%nat = _ |- _ => rewrite E
      end
    | progress cbn [res_bind add_part group_truthy andb] ].
  all: try reflexivity.
  all: do 2 f_equal; lia.
Qed.

(** ** The leftmost token decides *)

Lemma app_same_length (a b x y : str) :
  a ++ x = b ++ y -> PyStr.length a = PyStr.length b -> a = b /\ x = y.
Proof.
  revert b. induction a as [| c a IH]; intros [| c' b] H L;
    simpl in *; try discriminate.
  - auto.
  - inversion H; subst. apply eq_add_S in L.
    destruct (IH b) as [-> ->]; auto.
Qed.

Lemma no_match_no_token s t post :
  Re.re_match duration_pattern s = None ->
  Token.well_formed t = true -> s <> Token.text t ++ post.
Proof.
  intros Hn Hwf ->. rewrite token_match in Hn by assumption. discriminate.
Qed.

(** What [re.search] finds: the captures of a token with no token
    starting before it, or nothing when the title holds no token. *)
Lemma search_leftmost title :
  match Re.re_search duration_pattern title with
  | Some g =>
      exists t pre post,
        Token.well_formed t = true /\ title = pre ++ Token.text t ++ post /\
        g = Token.captures t /\
        forall t' pre' post',
          Token.well_formed t' = true ->
          title = pre' ++ Token.text t' ++ post' ->
          (PyStr.length pre <= PyStr.length pre')%nat
  | None =>
      forall t pre post,
        Token.well_formed t = true -> title <> pre ++ Token.text t ++ post
  end.
Proof.
  induction title as [| c s IH].
  - change (Re.re_search duration_pattern "") with (@None Re.groups).
    intros t [| c pre] post Hwf; simpl; [| discriminate].
    now apply no_match_no_token.
  - destruct (Re.re_match duration_pattern (String c s)) as [g |] eqn:E.
    + rewrite (search_here _ _ E).
      destruct (match_is_token _ E) as (t & post & Hwf & Ht).
      exists t, "", post. repeat split; auto.
      * rewrite Ht, token_match in E by assumption. congruence.
      * intros. simpl. lia.
    + rewrite search_next by assumption.
      destruct (Re.re_search duration_pattern s) as [g |].
      * destruct IH as (t & pre & post & Hwf & -> & -> & Hleft).
        exists t, (String c pre), post. repeat split; auto.
        intros t' [| c' pre'] post' Hwf' Ht'.
        -- exfalso. simpl in Ht'.
           exact (no_match_no_token (post:=post') E Hwf' Ht').
        -- simpl in Ht'. inversion Ht'; subst c'.
           simpl. apply le_n_S. now apply (Hleft t' pre' post').
      * intros t [| c' pre] post Hwf.
        -- now apply no_match_no_token.
        -- simpl. intros Ht. inversion Ht; subst c'.
           now apply (IH t pre post).
Qed.

Lemma parse_on_captures (title : str) t :
  Token.well_formed t = true ->
  Re.re_search duration_pattern title = Some (Token.captures t) ->
  parse_duration title =
  if Token.within_limit t then Ok (Some (Token.value t))
  else Err PyStr.too_many_digits.
Proof.
  intros Hwf Hs. unfold parse_duration. rewrite Hs.
  now apply captures_seconds.
Qed.

(** What [parse_duration] does on a title that is a string, in terms
    of the leftmost token of the title. *)
Lemma parse_duration_cases (title : str) :
  (exists t n,
      Token.well_formed t = true /\ Token.occurs_at t n title
      /\ (forall t' n',
             Token.well_formed t' = true -> Token.occurs_at t' n' title ->
             (n <= n')%nat)
      /\ parse_duration title =
         if Token.within_limit t then Ok (Some (Token.value t))
         else Err PyStr.too_many_digits)
  \/ ((forall t n, Token.well_formed t = true -> ~ Token.occurs_at t n title)
      /\ parse_duration title = Ok None).
Proof.
  pose proof (search_leftmost title) as Hs.
  destruct (Re.re_search duration_pattern title) as [g |] eqn:E.
  - left. destruct Hs as (t0 & pre0 & post0 & Hwf0 & Ht0 & -> & Hleft0).
    exists t0, (PyStr.length pre0). split; [assumption |]. split; [| split].
    + now exists pre0, post0.
    + intros t' n' Hwf' (pre' & post' & Ht' & <-).
      now apply (Hleft0 t' pre' post').
    + now apply parse_on_captures.
  - right. split.
    + intros t n Hwf (pre & post & Ht & _). now apply (Hs t pre post).
    + unfold parse_duration. now rewrite E.
Qed.

(** Two well-formed tokens that start at the same place of a title
    have the same hours, minutes and seconds. *)
Lemma token_at_unique (title : str) t t' n :
  Token.well_formed t = true -> Token.well_formed t' = true ->
  Token.occurs_at t n title -> Token.occurs_at t' n title ->
  Token.captures t = Token.captures t'.
Proof.
  intros Hwf Hwf' (pre & post & Ht & Hn) (pre' & post' & Ht' & Hn').
  rewrite Ht in Ht'. rewrite <- Hn' in Hn.
  destruct (app_same_length _ _ _ _ Ht' Hn) as [_ Hrest].
  pose proof (token_match t post Hwf) as H1.
  rewrite Hrest, token_match in H1 by assumption. congruence.
Qed.

(** C2, as the code has it. A title that holds a duration token, a
    parenthesis, then hours (optional), minutes and seconds (optional)
    as digits followed by h, m and s, then a comma, parses to
    H*3600 + M*60 + S, the token read being the leftmost one, when no
    number of that token has more than 4300 digits; when one has,
    [int] refuses it and [parse_duration] raises [ValueError]. A title
    that holds no such token parses to no value ([None], not zero). *)
Theorem parse_duration_token_value (title : str) :
  (forall t n,
      Token.well_formed t = true ->
      Token.occurs_at t n title ->
      (forall t' n',
          Token.well_formed t' = true -> Token.occurs_at t' n' title ->
          (n <= n')%nat) ->
      (Token.within_limit t = true ->
       parse_duration title = Ok (Some (Token.value t)))
      /\
      (Token.within_limit t = false ->
       exists e, parse_duration title = Err e /\ exn_cls e = ValueError))
  /\
  ((forall t n, Token.well_formed t = true -> ~ Token.occurs_at t n title) ->
   parse_duration title = Ok None).
Proof.
  pose proof (search_leftmost title) as Hs.
  destruct (Re.re_search duration_pattern title) as [g |] eqn:E; split.
  - intros t n Hwf Hocc Hleft.
    destruct Hs as (t0 & pre0 & post0 & Hwf0 & Ht0 & -> & Hleft0).
    assert (Hocc0 : Token.occurs_at t0 (PyStr.length pre0) title)
      by now exists pre0, post0.
    assert (Hn : n = PyStr.length pre0).
    { destruct Hocc as (pre & post & Ht & Hn). apply Nat.le_antisymm.
      - now apply (Hleft t0 (PyStr.length pre0)).
      - rewrite <- Hn. now apply (Hleft0 t pre post). }
    subst n.
    pose proof (token_at_unique Hwf0 Hwf Hocc0 Hocc) as Hcap.
    rewrite Hcap in E.
    rewrite (@parse_on_captures title t Hwf E).
    split; intros ->; [reflexivity |].
    now exists PyStr.too_many_digits.
  - intros Hnone. exfalso.
    destruct Hs as (t0 & pre0 & post0 & Hwf0 & Ht0 & _).
    apply (Hnone t0 (PyStr.length pre0) Hwf0). now exists pre0, post0.
  - intros t n Hwf (pre & post & Ht & _) _. exfalso.
    now apply (Hs t pre post).
  - intros _. unfold parse_duration. now rewrite E.
Qed.

(** The token of ["(14m 01s, 640x480)"]. *)
Lemma parse_duration_token_value_witness :
  parse_duration "(14m 01s, 640x480)" = Ok (Some 841).
Proof.
  apply (proj1 (parse_duration_token_value "(14m 01s, 640x480)")
           (Token.Build None "14" " " (Some "01")) 0%nat).
  - reflexivity.
  - exists "", " 640x480)". split; reflexivity.
  - intros. lia.
  - reflexivity.
Defined.

(* ================================================================= *)
(** ** generate_thumbnail and get_video_duration *)

Section Effects.
Context {W : Type} {world : World W}.

(** C6. [generate_thumbnail] always returns a boolean: whatever the
    external process does (a timeout of its 60 second budget, a
    non-zero status, any other exception), the call neither raises nor
    exits. It runs the one command it built, with timeout 60; the
    result is [True] exactly when the process completed with status 0;
    and on a non-zero status the first 200 characters of the error
    output are printed. *)
Theorem generate_thumbnail_total (video_url output_path : str)
    (seek_time : option number) (st : state W) :
  let cmd := ffmpeg_cmd video_url output_path seek_time in
  let answer := fst (subprocess_run cmd (Some 60) (st_world st)) in
  exists (b : bool) (st' : state W),
    generate_thumbnail video_url output_path seek_time st = (Ret b, st')
    /\ st_calls st' = List.app (st_calls st) [(cmd, Some 60)]
    /\ st_world st' = snd (subprocess_run cmd (Some 60) (st_world st))
    /\ (b = true <-> exists c, answer = Ok c /\ returncode c = 0)
    /\ (forall c, answer = Ok c -> returncode c <> 0 ->
        st_out st' =
        List.app (st_out st)
          ["  ✗ FFmpeg error: " ++ PyStr.take 200 (stderr c)])
    /\ (forall e, answer = Err e -> exn_cls e = TimeoutExpired ->
        st_out st' = List.app (st_out st) ["  ✗ Timeout extracting thumbnail"]).
Proof.
  intros cmd answer. subst answer.
  unfold generate_thumbnail, try_except, bind, run. fold cmd.
  destruct (subprocess_run cmd (Some 60) (st_world st)) as [[c | e] w].
  - cbn [fst snd]. destruct (returncode c =? 0)%Z eqn:Hrc.
    + apply Z.eqb_eq in Hrc. eexists true, _. cbn.
      repeat split; try reflexivity.
      * intros _. now exists c.
      * intros c' Hc'. inversion Hc'; subst c'. congruence.
      * intros e He. discriminate.
    + apply Z.eqb_neq in Hrc. eexists false, _. cbn.
      repeat split; try reflexivity.
      * discriminate.
      * intros (c' & Hc' & Hz). inversion Hc'; subst c'. congruence.
      * intros c' Hc' _. now inversion Hc'.
      * intros e He. discriminate.
  - cbn [fst snd].
    destruct (exn_cls e) eqn:Hcls; eexists false, _; cbn;
      repeat split; try reflexivity; try discriminate;
      try (intros (c' & Hc' & _); discriminate);
      try (intros c' Hc'; discriminate);
      intros e' He' Ht; inversion He'; subst e';
      first [reflexivity | congruence].
Qed.

(** The part of C6 the loop relies on: the call returns, after one
    subprocess. *)
Lemma generate_thumbnail_returns (video_url output_path : str)
    (seek_time : option number) (st : state W) :
  exists (b : bool) (st' : state W),
    generate_thumbnail video_url output_path seek_time st = (Ret b, st')
    /\ st_calls st' =
       List.app (st_calls st)
         [(ffmpeg_cmd video_url output_path seek_time, Some 60)].
Proof.
  unfold generate_thumbnail, try_except, bind, run.
  destruct (subprocess_run (ffmpeg_cmd video_url output_path seek_time)
              (Some 60) (st_world st)) as [[c | e] w].
  - destruct (returncode c =? 0)%Z; cbn; do 2 eexists; split; reflexivity.
  - destruct (exn_cls e); cbn; do 2 eexists; split; reflexivity.
Qed.

(** [get_video_duration] never raises: a failure of the probe (an
    exception, a non-zero status, an output that is no float) is the
    result [None]. It runs ffprobe once, with timeout 30. *)
Lemma get_video_duration_total (url : str) (st : state W) :
  exists (d : option float) (st' : state W),
    get_video_duration url st = (Ret d, st')
    /\ st_calls st' = List.app (st_calls st) [(ffprobe_cmd url, Some 30)].
Proof.
  unfold get_video_duration, try_except, bind, run.
  destruct (subprocess_run (ffprobe_cmd url) (Some 30) (st_world st))
    as [[c | e] w].
  - destruct (returncode c =? 0)%Z.
    + unfold lift. destruct (py_float (PyStr.strip (stdout c))) as [f | e];
        cbn; do 2 eexists; split; reflexivity.
    + cbn. do 2 eexists; split; reflexivity.
  - cbn. do 2 eexists; split; reflexivity.
Qed.

(** [get_video_duration] computes the probe of the specification. *)
Lemma get_video_duration_outcome (url : str) (st : state W) :
  exists st',
    get_video_duration url st =
      (Ret (probe_outcome
              (fst (subprocess_run (ffprobe_cmd url) (Some 30) (st_world st)))),
       st')
    /\ st_calls st' = List.app (st_calls st) [(ffprobe_cmd url, Some 30)]
    /\ st_world st' =
       snd (subprocess_run (ffprobe_cmd url) (Some 30) (st_world st)).
Proof.
  unfold get_video_duration, try_except, bind, run, probe_outcome.
  destruct (subprocess_run (ffprobe_cmd url) (Some 30) (st_world st))
    as [[c | e] w]; cbn [fst snd].
  - destruct (returncode c =? 0)%Z.
    + unfold lift. destruct (py_float (PyStr.strip (stdout c))) as [f | e];
        cbn; eexists; repeat split; reflexivity.
    + cbn. eexists; repeat split; reflexivity.
  - cbn. eexists; repeat split; reflexivity.
Qed.

(** C9, as the code has it. A seek time that is given and is not zero
    puts [-ss] and the seek time in the command, before the input; with
    no seek time, or with a seek time of zero, the command has no seek
    argument. *)
Theorem ffmpeg_cmd_seek (video_url output_path : str)
    (seek_time : option number) :
  (forall n, seek_time = Some n -> number_truthy n = true ->
     ffmpeg_cmd video_url output_path seek_time =
     ["ffmpeg"; "-y"; "-ss"; str_number n; "-i"; video_url; "-vframes"; "1";
      "-q:v"; "2"; "-vf"; "scale=320:-1"; output_path])
  /\
  (seek_time = None \/
   (exists n, seek_time = Some n /\ number_truthy n = false) ->
     ffmpeg_cmd video_url output_path seek_time =
     ["ffmpeg"; "-y"; "-i"; video_url; "-vframes"; "1";
      "-q:v"; "2"; "-vf"; "scale=320:-1"; output_path]).
Proof.
  unfold ffmpeg_cmd, seek_truthy. split.
  - intros n -> Hn. now rewrite Hn.
  - intros [-> | (n & -> & Hn)]; [reflexivity | now rewrite Hn].
Qed.

End Effects.

(* ================================================================= *)
(** ** The three tiers of the seek time *)

Section Tiers.
Context {W : Type} {world : World W}.

(** First tier: a title that parses to a duration other than zero. *)
Lemma resolve_from_title title url (st : state W) D f :
  parse_duration title = Ok (Some D) -> D <> 0 -> int_truediv2 D = Ok f ->
  exists st',
    resolve_seek_time title url st = (Ret (PyFloat f), st')
    /\ st_calls st' = st_calls st /\ st_world st' = st_world st.
Proof.
  intros Hp HD Hf. unfold resolve_seek_time, bind. rewrite Hp. cbn.
  apply Z.eqb_neq in HD. rewrite HD, Hf. cbn.
  eexists; repeat split; reflexivity.
Qed.

(** The division of the first tier can overflow; the exception is not
    caught. *)
Lemma resolve_overflow title url (st : state W) D e :
  parse_duration title = Ok (Some D) -> D <> 0 -> int_truediv2 D = Err e ->
  resolve_seek_time title url st = (Raise e, st).
Proof.
  intros Hp HD Hf. unfold resolve_seek_time, bind. rewrite Hp. cbn.
  apply Z.eqb_neq in HD. rewrite HD, Hf. reflexivity.
Qed.

(** Second and third tier: the title gave no value, or zero. *)
Lemma resolve_from_probe title url (st : state W) d :
  parse_duration title = Ok d -> int_truthy d = None ->
  let answer := subprocess_run (ffprobe_cmd url) (Some 30) (st_world st) in
  exists st',
    resolve_seek_time title url st =
      (Ret match probe_truthy (probe_outcome (fst answer)) with
           | Some f => PyFloat (float_div2 f)
           | None => PyInt 30
           end, st')
    /\ st_calls st' = List.app (st_calls st) [(ffprobe_cmd url, Some 30)]
    /\ st_world st' = snd answer.
Proof.
  intros Hp Hd answer. subst answer.
  unfold resolve_seek_time, bind. rewrite Hp. cbn [lift ret]. rewrite Hd.
  cbn [print].
  match goal with
  | |- context [get_video_duration url ?s] =>
      destruct (get_video_duration_outcome url s) as (st2 & -> & Hc & Hw)
  end.
  cbn [st_world st_calls] in *.
  destruct (probe_truthy _); cbn; eexists; repeat split; assumption.
Qed.

(** An exception of [parse_duration] is not caught. *)
Lemma resolve_parse_error title url (st : state W) e :
  parse_duration title = Err e ->
  resolve_seek_time title url st = (Raise e, st).
Proof.
  intros Hp. unfold resolve_seek_time, bind. now rewrite Hp.
Qed.

Lemma int_truthy_some d D : int_truthy d = Some D -> d = Some D /\ D <> 0.
Proof.
  destruct d as [z |]; [| discriminate]. simpl.
  destruct (z =? 0)%Z eqn:E; [discriminate |].
  apply Z.eqb_neq in E. intros H. inversion H. now subst.
Qed.

(** [resolve_seek_time] never exits, and it raises only when
    [parse_duration] raises or the division of the first tier
    overflows; it has then started no subprocess. *)
Lemma resolve_no_exit title url (st : state W) :
  (exists n st', resolve_seek_time title url st = (Ret n, st'))
  \/ (exists e, resolve_seek_time title url st = (Raise e, st)).
Proof.
  destruct (parse_duration title) as [d | e] eqn:Hp.
  2:{ right. exists e. now apply resolve_parse_error. }
  destruct (int_truthy d) as [D |] eqn:Hd.
  - apply int_truthy_some in Hd. destruct Hd as [-> HD].
    destruct (int_truediv2 D) as [f | e] eqn:Hf.
    + destruct (resolve_from_title title url st Hp HD Hf) as (st' & H & _).
      left. eauto.
    + right. exists e. now apply resolve_overflow with (D := D).
  - destruct (resolve_from_probe title url st Hp Hd) as (st' & H & _).
    left. eauto.
Qed.

End Tiers.

(* ================================================================= *)
(** ** The monad *)

Section Monad.
Context {W : Type}.

Lemma bind_ret_inv (A B : Type) (m : M W A) (f : A -> M W B) st b st' :
  bind m f st = (Ret b, st') ->
  exists a st1, m st = (Ret a, st1) /\ f a st1 = (Ret b, st').
Proof.
  unfold bind. destruct (m st) as [[a | e | code] st1]; try discriminate.
  eauto.
Qed.

Lemma bind_exit_inv (A B : Type) (m : M W A) (f : A -> M W B) st code st' :
  bind m f st = (Exit code, st') ->
  m st = (Exit code, st')
  \/ exists a st1, m st = (Ret a, st1) /\ f a st1 = (Exit code, st').
Proof.
  unfold bind. destruct (m st) as [[a | e | c] st1]; try discriminate.
  - intros H. right. now exists a, st1.
  - intros H. inversion H; subst. now left.
Qed.

Lemma bind_ret (A B : Type) (m : M W A) (f : A -> M W B) st a st1 :
  m st = (Ret a, st1) -> bind m f st = f a st1.
Proof. unfold bind. now intros ->. Qed.

Lemma bind_raise (A B : Type) (m : M W A) (f : A -> M W B) st e st1 :
  m st = (Raise e, st1) -> bind m f st = (Raise e, st1).
Proof. unfold bind. now intros ->. Qed.

Lemma bind_exit (A B : Type) (m : M W A) (f : A -> M W B) st code st1 :
  m st = (Exit code, st1) -> bind m f st = (Exit code, st1).
Proof. unfold bind. now intros ->. Qed.

End Monad.

Ltac bind_in H K :=
  first [ rewrite (@bind_ret _ _ _ _ _ _ _ _ H) in K
        | rewrite (@bind_raise _ _ _ _ _ _ _ _ H) in K
        | rewrite (@bind_exit _ _ _ _ _ _ _ _ H) in K ].

Ltac bind_with H :=
  first [ rewrite (@bind_ret _ _ _ _ _ _ _ _ H)
        | rewrite (@bind_raise _ _ _ _ _ _ _ _ H)
        | rewrite (@bind_exit _ _ _ _ _ _ _ _ H) ].

(* ================================================================= *)
(** ** One iteration of the loop *)

Section Iteration.
Context {W : Type} {world : World W}.

(** A record with no URL, or with none of its identifier, is skipped:
    one more skip, no subprocess, the world untouched. *)
Lemma process_video_missing i total v c (st : state W) :
  str_truthy (url v) = None \/ str_truthy (identifier v) = None ->
  exists st',
    process_video i total v c st = (Ret (incr_skipped c), st')
    /\ st_calls st' = st_calls st /\ st_world st' = st_world st.
Proof.
  intros H. unfold process_video.
  destruct (str_truthy (url v)) as [u |], (str_truthy (identifier v)) as [id |];
    try (destruct H; discriminate);
    cbn; eexists; repeat split; reflexivity.
Qed.

Lemma path_exists_found p (w : W) :
  path_exists p w = true <-> os_stat p w = Found.
Proof. unfold path_exists. destruct (os_stat p w); split; congruence. Qed.

(** A record whose thumbnail exists is skipped as well. *)
Lemma process_video_exists i total v c (st : state W) u id :
  str_truthy (url v) = Some u -> str_truthy (identifier v) = Some id ->
  path_exists (thumb_path_of id) (st_world st) = true ->
  exists st',
    process_video i total v c st = (Ret (incr_skipped c), st')
    /\ st_calls st' = st_calls st /\ st_world st' = st_world st.
Proof.
  intros Hu Hid Hex. apply path_exists_found in Hex.
  unfold process_video, thumb_path_of in *.
  rewrite Hu, Hid. unfold bind, Path_exists. rewrite Hex.
  cbn. eexists; repeat split; reflexivity.
Qed.

(** An error of [os.stat] that does not mean a missing file leaves the
    test of existence, and the loop, uncaught. *)
Lemma process_video_stat_error i total v c (st : state W) u id e :
  str_truthy (url v) = Some u -> str_truthy (identifier v) = Some id ->
  os_stat (thumb_path_of id) (st_world st) = StatError e ->
  process_video i total v c st = (Raise e, st).
Proof.
  intros Hu Hid Hex. unfold process_video, thumb_path_of in *.
  rewrite Hu, Hid. unfold bind, Path_exists. now rewrite Hex.
Qed.

(** A title that is null cannot be sliced: the [TypeError] is raised
    before anything is printed or run for the record. *)
Lemma process_video_null_title i total v c (st : state W) u id :
  str_truthy (url v) = Some u -> str_truthy (identifier v) = Some id ->
  os_stat (thumb_path_of id) (st_world st) = Missing ->
  title_of v = TitleNull ->
  process_video i total v c st
  = (Raise (Exn TypeError "'NoneType' object is not subscriptable"), st).
Proof.
  intros Hu Hid Hex Ht. unfold process_video, thumb_path_of in *.
  rewrite Hu, Hid, Ht. unfold bind, Path_exists. now rewrite Hex.
Qed.

(** Any other record goes through the seek time and the extraction. *)
Lemma process_video_extract i total v c (st : state W) u id t :
  str_truthy (url v) = Some u -> str_truthy (identifier v) = Some id ->
  os_stat (thumb_path_of id) (st_world st) = Missing ->
  title_of v = TitleStr t ->
  let st1 := State (st_world st)
               (List.app (st_out st)
                  [progress i total ++ "Processing: "
                   ++ PyStr.take 60 t ++ "..."])
               (st_calls st) in
  match resolve_seek_time (title_of v) u st1 with
  | (Ret seek_time, st2) =>
      exists (ok : bool) st',
        process_video i total v c st =
          (Ret (if ok then incr_success c else incr_failed c), st')
        /\ st_calls st' =
           List.app (st_calls st2)
             [(ffmpeg_cmd u (thumb_path_of id) (Some seek_time), Some 60)]
  | (Raise e, st2) => process_video i total v c st = (Raise e, st2)
  | (Exit code, st2) => process_video i total v c st = (Exit code, st2)
  end.
Proof.
  intros Hu Hid Hex Ht st1. unfold process_video, thumb_path_of in *.
  rewrite Hu, Hid, Ht.
  assert (Hex' : Path_exists (path_join thumb_dir (id ++ ".jpg")) st
                 = (Ret false, st))
    by (unfold Path_exists; now rewrite Hex).
  bind_with Hex'. cbv iota beta.
  assert (Hsl : @lift W _ (title_prefix 60 (TitleStr t)) st
                = (Ret (PyStr.take 60 t), st)) by reflexivity.
  bind_with Hsl.
  assert (Hpr : print (progress i total ++ "Processing: "
                       ++ PyStr.take 60 t ++ "...") st
                = (Ret tt, st1)) by reflexivity.
  bind_with Hpr.
  destruct (resolve_seek_time (TitleStr t) u st1)
    as [[seek | e | code] st2] eqn:Hr.
  - bind_with Hr.
    destruct (generate_thumbnail_returns u
                (path_join thumb_dir (id ++ ".jpg")) (Some seek) st2)
      as (b & st3 & Hg & Hc).
    bind_with Hg.
    destruct b.
    + exists true. eexists. split; [reflexivity | exact Hc].
    + exists false. eexists. split; [reflexivity | exact Hc].
  - now bind_with Hr.
  - now bind_with Hr.
Qed.

(** A title that parses is a string. *)
Lemma parsed_title_str (title : title_value) d :
  parse_duration title = Ok d -> exists t, title = TitleStr t.
Proof. destruct title as [| t]; [discriminate | eauto]. Qed.

(** Every iteration that returns has added one to exactly one of the
    three counters; an iteration never exits the process. *)
Lemma process_video_outcome i total v c (st : state W) :
  (exists c' st',
      process_video i total v c st = (Ret c', st')
      /\ (c' = incr_success c \/ c' = incr_failed c \/ c' = incr_skipped c))
  \/ (exists e st', process_video i total v c st = (Raise e, st')).
Proof.
  destruct (str_truthy (url v)) as [u |] eqn:Hu.
  2:{ destruct (@process_video_missing i total v c st (or_introl Hu))
        as (st' & H & _).
      left. eauto 6. }
  destruct (str_truthy (identifier v)) as [id |] eqn:Hid.
  2:{ destruct (@process_video_missing i total v c st (or_intror Hid))
        as (st' & H & _).
      left. eauto 6. }
  destruct (os_stat (thumb_path_of id) (st_world st)) as [| | e] eqn:Hex.
  { apply path_exists_found in Hex.
    destruct (@process_video_exists i total v c st u id Hu Hid Hex)
      as (st' & H & _).
    left. eauto 6. }
  2:{ right. exists e, st. now apply process_video_stat_error with u id. }
  destruct (title_of v) as [| t] eqn:Ht.
  { right. eexists _, st. now apply process_video_null_title with u id. }
  pose proof (@process_video_extract i total v c st u id t Hu Hid Hex Ht) as H.
  cbv zeta in H.
  match type of H with
  | match resolve_seek_time ?t ?u ?s with _ => _ end =>
      destruct (resolve_no_exit t u s) as [(n & st2 & Hr) | (e & Hr)];
      rewrite Hr in H
  end.
  - destruct H as ([|] & st' & H & _); left; eauto 7.
  - right. eauto.
Qed.

End Iteration.

(* ================================================================= *)
(** ** Seek times *)

Section Seek.
Context {W : Type} {world : World W}.

Lemma int_truthy_none d : int_truthy d = None <-> d = None \/ d = Some 0.
Proof.
  destruct d as [z |]; simpl.
  - destruct (z =? 0)%Z eqn:E.
    + apply Z.eqb_eq in E. subst. intuition.
    + apply Z.eqb_neq in E. split; [discriminate |].
      intros [H | H]; [discriminate | inversion H; contradiction].
  - intuition.
Qed.


(** C4, as the code has it. The probe runs if and only if the title
    parses to no value or to zero, and the constant 30 is the seek time
    if and only if, besides, the probe gives no value or zero. No
    subprocess is started when the title parses to a duration other
    than zero, nor when parsing the title raises: the exception is not
    caught and ends the resolution. *)
Theorem probe_and_fallback_order title url (st : state W) :
  let probe :=
    probe_truthy (probe_outcome
      (fst (subprocess_run (ffprobe_cmd url) (Some 30) (st_world st)))) in
  let no_duration :=
    parse_duration title = Ok None \/ parse_duration title = Ok (Some 0) in
  forall o st',
    resolve_seek_time title url st = (o, st') ->
    exists new,
      st_calls st' = List.app (st_calls st) new
      /\ (new = [(ffprobe_cmd url, Some 30)] <-> no_duration)
      /\ (new = []
          <-> (exists D, parse_duration title = Ok (Some D) /\ D <> 0)
              \/ (exists e, parse_duration title = Err e))
      /\ (o = Ret (PyInt 30) <-> no_duration /\ probe = None)
      /\ (forall e, parse_duration title = Err e -> o = Raise e).
Proof.
  intros probe no_duration o st' Hres. subst no_duration.
  destruct (parse_duration title) as [d | e] eqn:Hp.
  2:{ rewrite (resolve_parse_error title url st Hp) in Hres.
      inversion Hres; subst o st'. exists []. rewrite app_nil_r.
      split; [reflexivity |]. split; [| split; [| split]].
      - split; [discriminate | intros [H | H]; discriminate].
      - split; [intros _; right; now exists e | reflexivity].
      - split; [discriminate | intros [[H | H] _]; discriminate].
      - intros e' He'. now inversion He'. }
  destruct (int_truthy d) as [D |] eqn:Hd.
  - apply int_truthy_some in Hd. destruct Hd as [-> HD].
    exists [].
    assert (Hcalls : st_calls st' = st_calls st /\ o <> Ret (PyInt 30)).
    { destruct (int_truediv2 D) as [f | e] eqn:Hf.
      - destruct (resolve_from_title title url st Hp HD Hf)
          as (st2 & Hr & Hc & _).
        rewrite Hr in Hres. inversion Hres; subst. split; [assumption |].
        discriminate.
      - rewrite (resolve_overflow title url st Hp HD Hf) in Hres.
        inversion Hres; subst. split; [reflexivity | discriminate]. }
    destruct Hcalls as [Hc Ho].
    rewrite app_nil_r. split; [assumption |]. split; [| split; [| split]].
    + split; [discriminate |].
      intros [H | H]; [discriminate | inversion H; contradiction].
    + split; [intros _; left; now exists D | reflexivity].
    + split; [intros H; contradiction |].
      intros [[H | H] _]; [discriminate | inversion H; contradiction].
    + discriminate.
  - destruct (resolve_from_probe title url st Hp Hd) as (st2 & Hr & Hc & _).
    rewrite Hr in Hres. inversion Hres; subst o st'. clear Hres.
    apply int_truthy_none in Hd.
    assert (Hno : Ok d = Ok None \/ Ok d = @Ok (option Z) (Some 0))
      by (destruct Hd as [-> | ->]; auto).
    exists [(ffprobe_cmd url, Some 30)].
    split; [assumption |]. split; [| split; [| split]].
    + split; [intros _; assumption | reflexivity].
    + split; [discriminate |].
      intros [(D & H & HD) | (e & H)]; [| discriminate].
      inversion H; subst d.
      destruct Hd as [H' | H']; [discriminate | inversion H'; contradiction].
    + fold probe. split.
      * intros H. split; [assumption |].
        destruct probe; [discriminate | reflexivity].
      * intros [_ Hprobe]. now rewrite Hprobe.
    + discriminate.
Qed.

End Seek.

(* ================================================================= *)
(** ** Deduplication *)

Lemma dict_set_keyed id v d :
  str_truthy (identifier v) = Some id -> keyed d -> keyed (dict_set id v d).
Proof.
  intros Hid. unfold keyed. induction d as [| [k x] d IH]; simpl; intros Hd.
  - constructor; [exact Hid | constructor].
  - inversion Hd; subst. destruct (PyStr.eqb id k).
    + constructor; assumption.
    + constructor; [assumption | now apply IH].
Qed.

Lemma dedup_step_keyed d v d' :
  keyed d -> dedup_step d v = Ok d' -> keyed d'.
Proof.
  intros Hd. unfold dedup_step.
  destruct (str_truthy (identifier v)) as [id |] eqn:Hid.
  2:{ intros H. inversion H. now subst. }
  destruct (dict_get id d) as [cur |].
  2:{ intros H. inversion H. now apply dict_set_keyed. }
  destruct (int_size cur) as [cs |]; [| discriminate].
  destruct (int_size v) as [ns |]; [| discriminate]. cbn [res_bind].
  destruct ((ns <? cs) && (ns >? 0))%Z; intros H; inversion H; subst;
    [now apply dict_set_keyed | assumption].
Qed.

Lemma dedup_loop_keyed all_videos :
  forall d d', keyed d -> dedup_loop all_videos d = Ok d' -> keyed d'.
Proof.
  induction all_videos as [| v rest IH]; simpl; intros d d' Hd H.
  - inversion H. now subst.
  - destruct (dedup_step d v) as [d1 |] eqn:E; [| discriminate].
    apply (IH d1 d'); [| exact H]. eapply dedup_step_keyed; eassumption.
Qed.

(** Every record kept by the deduplication has an identifier. *)
Lemma dedup_identifiers all_videos videos :
  dedup all_videos = Ok videos ->
  Forall (fun v => str_truthy (identifier v) <> None) videos.
Proof.
  unfold dedup. destruct (dedup_loop all_videos []) as [d |] eqn:E;
    [| discriminate].
  intros H. inversion H; subst videos. clear H.
  assert (Hk : keyed d)
    by (eapply dedup_loop_keyed; [| exact E]; constructor).
  unfold dict_values. apply Forall_map.
  eapply Forall_impl; [| exact Hk]. intros [k v] Hv. simpl in *. congruence.
Qed.

(** Two records with one identifier and sizes that coerce: the second
    replaces the first exactly when its size is smaller and positive. *)
Lemma dedup_pair v1 v2 id s1 s2 :
  str_truthy (identifier v1) = Some id ->
  str_truthy (identifier v2) = Some id ->
  int_size v1 = Ok s1 -> int_size v2 = Ok s2 ->
  dedup [v1; v2] = Ok [if ((s2 <? s1) && (s2 >? 0))%Z then v2 else v1].
Proof.
  intros H1 H2 Hs1 Hs2. unfold dedup. simpl. unfold dedup_step at 1.
  rewrite H1. simpl. unfold dedup_step. rewrite H2. simpl.
  rewrite str_eqb_refl, Hs1, Hs2. simpl.
  now destruct ((s2 <? s1) && (s2 >? 0))%Z.
Qed.

(** Among two records with positive sizes the smaller is kept, and the
    first on a tie. *)
Lemma dedup_pair_positive v1 v2 id s1 s2 :
  str_truthy (identifier v1) = Some id ->
  str_truthy (identifier v2) = Some id ->
  int_size v1 = Ok s1 -> int_size v2 = Ok s2 ->
  0 < s1 -> 0 < s2 ->
  dedup [v1; v2] = Ok [if (s2 <? s1)%Z then v2 else v1].
Proof.
  intros H1 H2 Hs1 Hs2 P1 P2.
  rewrite (@dedup_pair v1 v2 id s1 s2 H1 H2 Hs1 Hs2).
  replace (s2 >? 0)%Z with true by (symmetry; apply Z.gtb_lt; lia).
  now rewrite andb_true_r.
Qed.

(** A record of size zero never replaces an earlier record. *)
Lemma dedup_pair_zero_second v1 v2 id s1 :
  str_truthy (identifier v1) = Some id ->
  str_truthy (identifier v2) = Some id ->
  int_size v1 = Ok s1 -> int_size v2 = Ok 0 ->
  dedup [v1; v2] = Ok [v1].
Proof.
  intros H1 H2 Hs1 Hs2.
  rewrite (@dedup_pair v1 v2 id s1 0 H1 H2 Hs1 Hs2).
  now rewrite andb_false_r.
Qed.

(** C1, on the failing input. Two records share the identifier abc; the
    first has size 0 and the second size 300. The record of size 0 is
    the one kept: a later record replaces the current one only when its
    size is smaller, and 300 is not smaller than 0. *)
Theorem dedup_zero_first_kept :
  let first := Video (Some "abc") (Some "http://x/a.mp4") None None
                 (Some (SizeInt 0)) in
  let second := Video (Some "abc") (Some "http://x/b.mp4") None None
                  (Some (SizeInt 300)) in
  dedup [first; second] = Ok [first]
  /\ dedup [second; first] = Ok [second].
Proof. split; reflexivity. Qed.

(** A record with no size counts as size 0; a size that does not coerce
    on a record whose identifier is already kept fails the step, and a
    failed step fails the loop. *)
Lemma dedup_size_errors :
  (forall v, size v = None -> int_size v = Ok 0)
  /\
  (forall d v id current cs e,
      str_truthy (identifier v) = Some id ->
      dict_get id d = Some current ->
      int_size current = Ok cs ->
      int_size v = Err e ->
      dedup_step d v = Err e)
  /\
  (forall d v rest e, dedup_step d v = Err e -> dedup_loop (v :: rest) d = Err e).
Proof.
  split; [| split].
  - intros v Hv. unfold int_size. now rewrite Hv.
  - intros d v id current cs e Hid Hget Hcs Hv. unfold dedup_step.
    now rewrite Hid, Hget, Hcs, Hv.
  - intros d v rest e H. simpl. now rewrite H.
Qed.

(* ================================================================= *)
(** ** The whole run *)

Section Run.
Context {W : Type} {world : World W}.

Lemma process_videos_outcome videos :
  forall i total c (st : state W),
    (exists c' st',
        process_videos i total videos c st = (Ret c', st')
        /\ counted c' = counted c + Z.of_nat (List.length videos))
    \/ (exists e st', process_videos i total videos c st = (Raise e, st')).
Proof.
  induction videos as [| v rest IH]; intros i total c st.
  - left. exists c, st. split; [reflexivity |]. simpl. lia.
  - cbn [process_videos].
    destruct (process_video_outcome i total v c st)
      as [(c1 & st1 & H1 & Hc) | (e & st1 & H1)].
    + bind_with H1.
      destruct (IH (S i) total c1 st1)
        as [(c2 & st2 & H2 & Hsum) | (e & st2 & H2)].
      * left. exists c2, st2. split; [assumption |].
        rewrite Hsum.
        assert (counted c1 = counted c + 1)
          by (destruct Hc as [-> | [-> | ->]]; unfold counted; simpl; lia).
        cbn [List.length]. lia.
      * right. eauto.
    + right. bind_with H1. eauto.
Qed.

(** The summary starts no subprocess; it raises only when the working
    directory cannot be told. *)
Lemma print_summary_ret total c (st : state W) :
  (exists st', print_summary total c st = (Ret tt, st')
               /\ st_calls st' = st_calls st /\ st_world st' = st_world st)
  \/ (exists e st', print_summary total c st = (Raise e, st')).
Proof.
  unfold print_summary, bind, print, absolute. cbn [st_world st_out st_calls].
  destruct (path_absolute thumb_dir (st_world st)) as [d | e].
  - left. eexists. repeat split; reflexivity.
  - right. eauto.
Qed.

(** The startup check, case by case. *)
Lemma check_ffmpeg_cases (st : state W) :
  let v := subprocess_run ffmpeg_version_cmd None (st_world st) in
  let st1 := State (snd v) (st_out st)
               (List.app (st_calls st) [(ffmpeg_version_cmd, None)]) in
  if tool_missing (fst v)
  then exists st', check_ffmpeg st = (Exit 1, st')
                   /\ st_calls st' = st_calls st1 /\ st_world st' = snd v
  else (exists c, fst v = Ok c /\ check_ffmpeg st = (Ret tt, st1))
       \/ (exists e, fst v = Err e /\ check_ffmpeg st = (Raise e, st1)).
Proof.
  intros v st1. subst v st1.
  unfold check_ffmpeg, try_except, run_check, bind, run, tool_missing.
  destruct (subprocess_run ffmpeg_version_cmd None (st_world st))
    as [[c | e] w]; cbn [fst snd].
  - destruct (returncode c =? 0)%Z; cbn.
    + left. now exists c.
    + eexists. repeat split; reflexivity.
  - destruct (exn_cls e); cbn;
      first [ eexists; repeat split; reflexivity
            | right; now exists e ].
Qed.

End Run.

Section Main.
Context {W : Type} {world : World W}.

(** After a successful startup check the run exits only when the
    manifest is missing; when it returns, it has deduplicated the
    manifest and run the loop over what the deduplication kept. *)
Lemma main_after_check (st st1 : state W) :
  check_ffmpeg st = (Ret tt, st1) ->
  if path_exists json_path (st_world st1)
  then forall o st', main st = (o, st') ->
       (exists s all_videos videos st2 st3,
           o = Ret s
           /\ load_mp4_files json_path (st_world st1) = Ok all_videos
           /\ dedup all_videos = Ok videos
           /\ total_videos s = List.length videos
           /\ process_videos 1 (List.length videos) videos (Counters 0 0 0) st2
              = (Ret (counts s), st3)
           /\ counted (counts s) = Z.of_nat (total_videos s))
       \/ (exists e, o = Raise e)
  else exists st', main st = (Exit 1, st')
                   /\ st_calls st' = st_calls st1
                   /\ st_world st' = st_world st1.
Proof.
  intros Hcheck. unfold main. bind_with Hcheck.
  destruct (path_exists json_path (st_world st1)) eqn:Hex.
  - assert (Hex' : exists_ json_path st1 = (Ret true, st1))
      by (unfold exists_; now rewrite Hex).
    bind_with Hex'. cbn [negb].
    assert (Hret : @ret W unit tt st1 = (Ret tt, st1)) by reflexivity.
    bind_with Hret.
    intros o st'.
    destruct (load_json json_path st1) as [[all_videos | e | code] st2] eqn:Hl.
    2:{ bind_with Hl. intros H. inversion H. right. eauto. }
    2:{ exfalso. unfold load_json in Hl.
        destruct (load_mp4_files json_path (st_world st1)); discriminate. }
    assert (Hload : load_mp4_files json_path (st_world st1) = Ok all_videos).
    { unfold load_json in Hl.
      destruct (load_mp4_files json_path (st_world st1)); now inversion Hl. }
    bind_with Hl.
    match goal with
    | |- (print ?l ;;; _) st2 = _ -> _ =>
        assert (Hp1 : print l st2 = (Ret tt, State (st_world st2)
                        (List.app (st_out st2) [l]) (st_calls st2)))
          by reflexivity;
        bind_with Hp1
    end.
    destruct (dedup all_videos) as [videos | e] eqn:Hdedup.
    2:{ cbn. intros H. inversion H. right. eauto. }
    cbn [lift].
    match goal with
    | |- (_ <- ret videos ;; _) ?s = _ -> _ =>
        assert (Hr2 : @ret W _ videos s = (Ret videos, s)) by reflexivity;
        bind_with Hr2
    end.
    unfold bind at 1. cbn [print]. unfold bind at 1. cbn [print].
    unfold bind at 1. unfold mkdir at 1. cbn [st_world st_out st_calls].
    destruct (mkdir_exist_ok thumb_dir (st_world st2)) as [[[] | e] w3].
    2:{ intros H. inversion H. right. eauto. }
    match goal with
    | |- (_ <- process_videos ?i ?t ?vs ?c ;; _) ?s = _ -> _ =>
        destruct (process_videos_outcome vs i t c s)
          as [(c' & st4 & Hpv & Hsum) | (e & st4 & Hpv)];
        bind_with Hpv
    end.
    2:{ intros H. inversion H. right. eauto. }
    destruct (print_summary_ret (List.length videos) c' st4)
      as [(st5 & Hps & _) | (e & st5 & Hps)]; bind_with Hps.
    2:{ intros H. inversion H. right. eauto. }
    cbn. intros H. inversion H. left.
    eexists _, all_videos, videos, _, st4.
    split; [reflexivity |]. split; [assumption |]. split; [exact Hdedup |].
    split; [reflexivity |]. split; [exact Hpv |].
    cbn. rewrite Hsum. reflexivity.
  - assert (Hex' : exists_ json_path st1 = (Ret false, st1))
      by (unfold exists_; now rewrite Hex).
    bind_with Hex'. cbn. eexists. repeat split; reflexivity.
Qed.

(** An error of the deduplication is not caught: the run ends with it. *)
Lemma main_dedup_error (st st1 : state W) all_videos e :
  check_ffmpeg st = (Ret tt, st1) ->
  path_exists json_path (st_world st1) = true ->
  load_mp4_files json_path (st_world st1) = Ok all_videos ->
  dedup all_videos = Err e ->
  exists st', main st = (Raise e, st')
              /\ st_calls st' = st_calls st1 /\ st_world st' = st_world st1.
Proof.
  intros Hcheck Hex Hload Hd. unfold main. bind_with Hcheck.
  assert (Hex' : exists_ json_path st1 = (Ret true, st1))
    by (unfold exists_; now rewrite Hex).
  bind_with Hex'. cbn [negb].
  assert (Hret : @ret W unit tt st1 = (Ret tt, st1)) by reflexivity.
  bind_with Hret.
  assert (Hl : load_json json_path st1 = (Ret all_videos, st1))
    by (unfold load_json; now rewrite Hload).
  bind_with Hl. rewrite Hd. cbn.
  eexists. repeat split; reflexivity.
Qed.

(** C7, as the code has it. A record with no size counts as size 0
    during the deduplication. A size that is present goes through
    [int]; when that fails on a record whose identifier is already
    kept, nothing catches the error: the deduplication fails with it,
    and so does the whole run, before any video is processed. *)
Theorem size_absent_or_not_coercible :
  (forall v, size v = None -> int_size v = Ok 0)
  /\
  (forall d v id current cs e,
      str_truthy (identifier v) = Some id ->
      dict_get id d = Some current ->
      int_size current = Ok cs ->
      int_size v = Err e ->
      dedup_step d v = Err e)
  /\
  (forall d v rest e,
      dedup_step d v = Err e -> dedup_loop (v :: rest) d = Err e)
  /\
  (forall (st st1 : state W) all_videos e,
      check_ffmpeg st = (Ret tt, st1) ->
      path_exists json_path (st_world st1) = true ->
      load_mp4_files json_path (st_world st1) = Ok all_videos ->
      dedup all_videos = Err e ->
      exists st', main st = (Raise e, st') /\ st_calls st' = st_calls st1).
Proof.
  destruct dedup_size_errors as (H1 & H2 & H3).
  repeat split; try assumption.
  intros st st1 all_videos e Hc Hex Hl Hd.
  destruct (main_dedup_error st Hc Hex Hl Hd) as (st' & H & Hcalls & _).
  eauto.
Qed.

(** C8, as the code has it. The process exits with status 1 when the
    startup check of the tool fails and when the manifest is missing,
    in both cases with nothing run but the check; any other run that
    ends without an uncaught exception ends with status 0. *)
Theorem exit_codes (st : state W) :
  let v := subprocess_run ffmpeg_version_cmd None (st_world st) in
  let check : call := (ffmpeg_version_cmd, None) in
  (tool_missing (fst v) = true ->
   exists st', main st = (Exit 1, st')
               /\ st_calls st' = List.app (st_calls st) [check]
               /\ st_world st' = snd v)
  /\
  (tool_missing (fst v) = false -> (exists c, fst v = Ok c) ->
   path_exists json_path (snd v) = false ->
   exists st', main st = (Exit 1, st')
               /\ st_calls st' = List.app (st_calls st) [check]
               /\ st_world st' = snd v)
  /\
  (tool_missing (fst v) = false ->
   path_exists json_path (snd v) = true ->
   forall o st', main st = (o, st') ->
                 (forall e, o <> Raise e) -> exit_status o = 0).
Proof.
  intros v check. pose proof (check_ffmpeg_cases st) as Hc.
  cbv zeta in Hc. fold v in Hc. split; [| split].
  - intros Hm. rewrite Hm in Hc. destruct Hc as (st' & Hc & Hcalls & Hw).
    exists st'. unfold main. bind_with Hc. auto.
  - intros Hm (c & Hv) Hex. rewrite Hm in Hc.
    destruct Hc as [(c' & _ & Hc) | (e & He & _)]; [| congruence].
    pose proof (main_after_check st Hc) as H.
    cbn [st_world] in H. rewrite Hex in H. exact H.
  - intros Hm Hex o st' Hmain Hno. rewrite Hm in Hc.
    destruct Hc as [(c' & _ & Hc) | (e & He & Hc)].
    + pose proof (main_after_check st Hc) as H.
      cbn [st_world] in H. rewrite Hex in H.
      destruct (H o st' Hmain)
        as [(s & all_videos & videos & st2 & st3 & -> & _) | (e & ->)];
        [reflexivity |].
      exfalso. now apply (Hno e).
    + exfalso. unfold main in Hmain. bind_in Hc Hmain.
      inversion Hmain. subst o. now apply (Hno e).
Qed.

(** C10. Every iteration of the loop that returns has added one to
    exactly one of the three counters. A run that completes has
    deduplicated the manifest it loaded and run the loop, from three
    counters at zero, over the videos the deduplication kept; the total
    it reports is their number, and the three counters it reports, which
    are those the loop returned, add up to that number. *)
Theorem counters_add_up :
  (forall i total v c (st : state W) c' st',
      process_video i total v c st = (Ret c', st') ->
      (c' = incr_success c \/ c' = incr_failed c \/ c' = incr_skipped c)
      /\ counted c' = counted c + 1)
  /\
  (forall (st : state W) s st',
      main st = (Ret s, st') ->
      exists all_videos videos,
        load_mp4_files json_path
          (snd (subprocess_run ffmpeg_version_cmd None (st_world st)))
        = Ok all_videos
        /\ dedup all_videos = Ok videos
        /\ total_videos s = List.length videos
        /\ (exists st1 st2,
               process_videos 1 (List.length videos) videos (Counters 0 0 0) st1
               = (Ret (counts s), st2))
        /\ success_count (counts s) + failed_count (counts s)
           + skipped_count (counts s) = Z.of_nat (List.length videos)).
Proof.
  split.
  - intros i total v c st c' st' H.
    destruct (process_video_outcome i total v c st)
      as [(c1 & st1 & H1 & Hc) | (e & st1 & H1)]; [| congruence].
    rewrite H1 in H. inversion H; subst c1 st1. split; [assumption |].
    destruct Hc as [-> | [-> | ->]]; unfold counted; simpl; lia.
  - intros st s st' H.
    pose proof (check_ffmpeg_cases st) as Hc. cbv zeta in Hc.
    destruct (tool_missing _).
    { destruct Hc as (st1 & Hc & _). unfold main in H. bind_in Hc H.
      discriminate. }
    destruct Hc as [(c & _ & Hc) | (e & _ & Hc)].
    2:{ unfold main in H. bind_in Hc H. discriminate. }
    pose proof (main_after_check st Hc) as Ha. cbn [st_world] in Ha.
    destruct (path_exists json_path _).
    + destruct (Ha _ _ H)
        as [(s' & all_videos & videos & st2 & st3 & Hs & Hl & Hd & Ht & Hp
             & Hsum) | (e & He)]; [| discriminate].
      inversion Hs; subst s'. exists all_videos, videos.
      split; [assumption |]. split; [assumption |]. split; [assumption |].
      split; [now exists st2, st3 |].
      unfold counted in Hsum. rewrite Hsum, Ht. reflexivity.
    + destruct Ha as (st1 & Ha & _). congruence.
Qed.

(** C5, as the code has it. A record with no identifier is dropped by
    the deduplication: it is not one of the videos counted in the
    total, and the loop, hence the skipped counter, never sees it. A
    record that is kept and has no URL is counted as skipped, starts no
    subprocess and leaves the world as it was; the loop goes on. *)
Theorem missing_fields_skipped :
  (forall d v, str_truthy (identifier v) = None -> dedup_step d v = Ok d)
  /\
  (forall all_videos videos,
      dedup all_videos = Ok videos ->
      Forall (fun v => str_truthy (identifier v) <> None) videos)
  /\
  (forall i total v c (st : state W),
      str_truthy (url v) = None ->
      exists st',
        process_video i total v c st = (Ret (incr_skipped c), st')
        /\ st_calls st' = st_calls st /\ st_world st' = st_world st).
Proof.
  split; [| split].
  - intros d v H. unfold dedup_step. now rewrite H.
  - apply dedup_identifiers.
  - intros i total v c st H.
    now apply process_video_missing; left.
Qed.

End Main.

(* ================================================================= *)
(** ** The model on concrete runs *)

Example parse_duration_examples :
  parse_duration "Film (1h 21m, 704x512)" = Ok (Some 4860)
  /\ parse_duration "(14m 01s, 640x480)" = Ok (Some 841)
  /\ parse_duration "(38m 13s, 320x240)" = Ok (Some 2293)
  /\ parse_duration "random title no duration" = Ok None
  /\ parse_duration "(0m, 320x240)" = Ok (Some 0).
Proof. repeat apply conj; vm_compute; reflexivity. Qed.

(** Digits and blanks are those of Unicode: here fullwidth digits, and
    a no-break space (U+00A0) and an ideographic space (U+3000) after
    the h. A title that is [None] is refused by [re.search]. *)
Example parse_duration_unicode :
  parse_duration ("(１h" ++ String 160%N (String 12288%N "２m ３s, 640x480)"))
  = Ok (Some 3723)
  /\ parse_duration TitleNull
     = Err (Exn TypeError "expected string or bytes-like object, got 'NoneType'").
Proof. apply conj; vm_compute; reflexivity. Qed.

Example int_of_str_examples :
  PyStr.int_of_str " 1_000 " = Ok 1000
  /\ PyStr.int_of_str "-４２" = Ok (-42)
  /\ PyStr.int_of_str "n/a" = Err PyStr.invalid_literal
  /\ PyStr.int_of_str "1__0" = Err PyStr.invalid_literal
  /\ PyStr.int_of_str (str_repeat "0" 4300) = Ok 0
  /\ PyStr.int_of_str (str_repeat "0" 4301) = Err PyStr.too_many_digits.
Proof. repeat apply conj; vm_compute; reflexivity. Qed.

Example int_truediv2_examples :
  int_truediv2 60 = Ok 30%float /\ int_truediv2 841 = Ok 420.5%float.
Proof. apply conj; vm_compute; reflexivity. Qed.

(** A duration too large for a float: the division raises. *)
Example int_truediv2_overflow :
  int_truediv2 (2 ^ 1025)
  = Err (Exn OverflowError "integer division result too large for a float").
Proof. vm_compute. reflexivity. Qed.

Example demo_run :
  fst (main (Sim.start Sim.demo)) = Ret (Summary 3 (Counters 0 2 1)).
Proof. vm_compute. reflexivity. Qed.

(** C2, the claim as stated fails. The title holds a well-formed token,
    4301 zeros of minutes, whose value is 0; [parse_duration] does not
    return 0 on it: [int] refuses the 4301 digits and the [ValueError]
    leaves [parse_duration]. *)
Lemma long_number_raises_counterexample :
  let t := Token.Build None (str_repeat "0" 4301) "" None in
  Token.well_formed t = true
  /\ Sim.long_number = Token.text t ++ " 320x240)"
  /\ Token.value t = 0
  /\ parse_duration Sim.long_number = Err PyStr.too_many_digits
  /\ exn_cls PyStr.too_many_digits = ValueError.
Proof. repeat apply conj; vm_compute; reflexivity. Qed.


(** C4, the claim as stated fails. The title parses, to 0 seconds, and
    the probe runs all the same. *)
Lemma probe_after_parsed_title_counterexample :
  parse_duration "(0m, 320x240)" = Ok (Some 0)
  /\ st_calls (snd (resolve_seek_time "(0m, 320x240)" "http://x/z.mp4"
                      (Sim.start Sim.zero_world)))
     = [(ffprobe_cmd "http://x/z.mp4", Some 30)].
Proof. apply conj; vm_compute; reflexivity. Qed.

(** C5, the claim as stated fails. The only record of the manifest has
    no identifier; the run completes with nothing skipped. *)
Lemma no_identifier_not_counted_counterexample :
  fst (main (Sim.start Sim.anonymous_world))
  = Ret (Summary 0 (Counters 0 0 0)).
Proof. vm_compute. reflexivity. Qed.

(** C7, the claim as stated fails. The size of the second record is no
    integer; it is not taken as 0, and the run ends with the
    [ValueError] before any video is processed. *)
Lemma bad_size_aborts_counterexample :
  fst (main (Sim.start Sim.bad_size_world))
  = Raise (Exn ValueError "invalid literal for int() with base 10")
  /\ st_calls (snd (main (Sim.start Sim.bad_size_world)))
     = [(ffmpeg_version_cmd, None)].
Proof. apply conj; vm_compute; reflexivity. Qed.

(** C8, the claim as stated fails. The tool is there and so is the
    manifest, but the manifest is not JSON: the run ends with an
    uncaught exception, status 1. *)
Lemma uncaught_exception_status_counterexample :
  tool_missing (fst (subprocess_run ffmpeg_version_cmd None Sim.bad_json_world))
  = false
  /\ path_exists json_path Sim.bad_json_world = true
  /\ exit_status (fst (main (Sim.start Sim.bad_json_world))) = 1.
Proof. repeat apply conj; vm_compute; reflexivity. Qed.

(** C9, the claim as stated fails. A seek time of 0 is given and the
    command has no [-ss]. *)
Lemma zero_seek_time_counterexample :
  ffmpeg_cmd (W := Sim.sim) "http://x/a.mp4" "thumbnails/a.jpg"
    (Some (PyInt 0))
  = ["ffmpeg"; "-y"; "-i"; "http://x/a.mp4"; "-vframes"; "1"; "-q:v"; "2";
     "-vf"; "scale=320:-1"; "thumbnails/a.jpg"].
Proof. reflexivity. Qed.


(** A title with no token in the demo world: the probe is the one
    subprocess started. *)
Lemma probe_and_fallback_order_witness :
  st_calls (snd (resolve_seek_time "no duration here" "http://x/d.mp4"
                   (Sim.start Sim.demo)))
  = [(ffprobe_cmd "http://x/d.mp4", Some 30)].
Proof.
  destruct (@probe_and_fallback_order Sim.sim Sim.sim_world
              "no duration here" "http://x/d.mp4" (Sim.start Sim.demo)
              _ _ (surjective_pairing _)) as (new & Hc & H1 & _).
  rewrite Hc. cbn [Sim.start st_calls List.app]. f_equal.
  apply H1. left. vm_compute. reflexivity.
Defined.

(** The record of the demo world that has no URL. *)
Lemma missing_fields_skipped_witness :
  exists st',
    process_video 3 3 (Video (Some "e") None None None None)
      (Counters 0 2 0) (Sim.start Sim.demo) = (Ret (Counters 0 2 1), st')
    /\ st_calls st' = [].
Proof.
  destruct (proj2 (proj2 (@missing_fields_skipped Sim.sim Sim.sim_world))
              3%nat 3%nat (Video (Some "e") None None None None)
              (Counters 0 2 0) (Sim.start Sim.demo) eq_refl)
    as (st' & H & Hc & _).
  exists st'. split; assumption.
Defined.

(** An extraction that fails in the demo world. *)
Lemma generate_thumbnail_total_witness :
  exists st',
    generate_thumbnail "http://x/d.mp4" "thumbnails/d.jpg" (Some (PyInt 30))
      (Sim.start Sim.demo) = (Ret false, st')
    /\ st_out st' = ["  ✗ FFmpeg error: Server returned 404 Not Found"].
Proof.
  destruct (generate_thumbnail_total "http://x/d.mp4" "thumbnails/d.jpg"
              (Some (PyInt 30)) (Sim.start Sim.demo))
    as (b & st' & H & _ & _ & Hb & Hout & _).
  exists st'. split.
  - destruct b; [| exact H].
    destruct (proj1 Hb eq_refl) as (c & Hc & Hz).
    vm_compute in Hc. inversion Hc. subst c. discriminate Hz.
  - apply (Hout (Completed 1 "" "Server returned 404 Not Found")).
    + reflexivity.
    + discriminate.
Defined.

(** The records of [Sim.bad_size_world]. *)
Lemma size_absent_or_not_coercible_witness :
  dedup_step [("abc", Sim.rec_ "abc" "http://x/a.mp4" "Film" 100)]
    (Video (Some "abc") (Some "http://x/b.mp4") None (Some "Film")
       (Some (SizeStr "n/a")))
  = Err (Exn ValueError "invalid literal for int() with base 10").
Proof.
  apply (proj1 (proj2 (@size_absent_or_not_coercible Sim.sim Sim.sim_world))
           [("abc", Sim.rec_ "abc" "http://x/a.mp4" "Film" 100)]
           (Video (Some "abc") (Some "http://x/b.mp4") None (Some "Film")
              (Some (SizeStr "n/a")))
           "abc" (Sim.rec_ "abc" "http://x/a.mp4" "Film" 100) 100);
    reflexivity.
Defined.

(** A world without ffmpeg, and a world without the manifest. *)
Lemma exit_codes_witness :
  (exists st', main (Sim.start Sim.no_tools_world) = (Exit 1, st')
               /\ st_calls st' = [(ffmpeg_version_cmd, None)])
  /\ (exists st', main (Sim.start Sim.no_manifest_world) = (Exit 1, st')
                  /\ st_calls st' = [(ffmpeg_version_cmd, None)]).
Proof.
  split.
  - destruct (proj1 (@exit_codes Sim.sim Sim.sim_world
                       (Sim.start Sim.no_tools_world)) eq_refl)
      as (st' & H & Hc & _).
    exists st'. split; assumption.
  - destruct (proj1 (proj2 (@exit_codes Sim.sim Sim.sim_world
                              (Sim.start Sim.no_manifest_world)))
                eq_refl (ex_intro _ (Completed 0 "" "") eq_refl) eq_refl)
      as (st' & H & Hc & _).
    exists st'. split; assumption.
Defined.

(** The fallback seek time of 30 in a command. *)
Lemma ffmpeg_cmd_seek_witness :
  ffmpeg_cmd (W := Sim.sim) "http://x/d.mp4" "thumbnails/d.jpg"
    (Some (PyInt 30))
  = ["ffmpeg"; "-y"; "-ss"; "30"; "-i"; "http://x/d.mp4"; "-vframes"; "1";
     "-q:v"; "2"; "-vf"; "scale=320:-1"; "thumbnails/d.jpg"].
Proof.
  apply (proj1 (@ffmpeg_cmd_seek Sim.sim Sim.sim_world "http://x/d.mp4"
                  "thumbnails/d.jpg" (Some (PyInt 30))) (PyInt 30));
    reflexivity.
Defined.

(** The run of the demo world: three videos are kept of the five
    records of the manifest, and the loop over them ends with no
    success, two failures and one skip. *)
Lemma counters_add_up_witness :
  exists all_videos videos,
    load_mp4_files json_path
      (snd (subprocess_run ffmpeg_version_cmd None Sim.demo))
    = Ok all_videos
    /\ dedup all_videos = Ok videos
    /\ 3%nat = List.length videos
    /\ (exists st1 st2 : state Sim.sim,
           process_videos 1 (List.length videos) videos (Counters 0 0 0) st1
           = (Ret (Counters 0 2 1), st2))
    /\ 0 + 2 + 1 = Z.of_nat (List.length videos).
Proof.
  assert (Hrun : main (Sim.start Sim.demo)
                 = (Ret (Summary 3 (Counters 0 2 1)),
                    snd (main (Sim.start Sim.demo))))
    by (rewrite <- demo_run; apply surjective_pairing).
  exact (proj2 (@counters_add_up Sim.sim Sim.sim_world) _ _ _ Hrun).
Defined.

(* ================================================================= *)
(** * Further properties of the code *)

(** ** The dict of the deduplication *)

(** Lookup after an assignment. *)
Lemma dict_get_set k' k v d :
  dict_get k' (dict_set k v d) =
  if PyStr.eqb k' k then Some v else dict_get k' d.
Proof.
  induction d as [| [k1 v1] d IH]; simpl.
  - reflexivity.
  - destruct (PyStr.eqb k k1) eqn:E; simpl.
    + apply str_eqb_eq in E. subst k1.
      now destruct (PyStr.eqb k' k).
    + rewrite IH. destruct (PyStr.eqb k' k) eqn:E'; [| reflexivity].
      apply str_eqb_eq in E'. subst k'. now rewrite E.
Qed.

Lemma dict_get_none k d : dict_get k d = None <-> ~ In k (map fst d).
Proof.
  induction d as [| [k1 v1] d IH]; simpl.
  - intuition.
  - destruct (PyStr.eqb k k1) eqn:E.
    + apply str_eqb_eq in E. subst. split; [discriminate | intuition].
    + apply str_eqb_neq in E. rewrite IH. intuition.
Qed.

(** An assignment keeps the keys, or adds the new key at the end. *)
Lemma dict_set_keys k v d :
  map fst (dict_set k v d) =
  match dict_get k d with
  | Some _ => map fst d
  | None => (map fst d ++ [k])%list
  end.
Proof.
  induction d as [| [k1 v1] d IH]; simpl.
  - reflexivity.
  - destruct (PyStr.eqb k k1) eqn:E; simpl.
    + apply str_eqb_eq in E. now subst.
    + rewrite IH. now destruct (dict_get k d).
Qed.

Lemma dict_set_nodup k v d :
  NoDup (map fst d) -> NoDup (map fst (dict_set k v d)).
Proof.
  intros Hd. rewrite dict_set_keys.
  destruct (dict_get k d) eqn:E; [assumption |].
  apply dict_get_none in E.
  apply NoDup_app; [assumption | |].
  - constructor; [intros H; exact H | constructor].
  - simpl. intros a Ha [Hk | H]; [subst a; contradiction | exact H].
Qed.

Lemma dict_get_in k v d : dict_get k d = Some v -> In (k, v) d.
Proof.
  induction d as [| [k1 v1] d IH]; simpl; [discriminate |].
  destruct (PyStr.eqb k k1) eqn:E.
  - apply str_eqb_eq in E. subst. intros H. inversion H. now left.
  - intros H. right. now apply IH.
Qed.

Lemma dict_in_get k v d :
  NoDup (map fst d) -> In (k, v) d -> dict_get k d = Some v.
Proof.
  induction d as [| [k1 v1] d IH]; simpl; intros Hd Hin; [contradiction |].
  destruct Hin as [H | H].
  - inversion H; subst. now rewrite str_eqb_refl.
  - inversion Hd; subst.
    destruct (PyStr.eqb k k1) eqn:E.
    + apply str_eqb_eq in E. subst. exfalso. apply H2.
      now apply (in_map fst) in H.
    + now apply IH.
Qed.

Lemma dict_set_new k v d :
  dict_get k d = None -> dict_set k v d = (d ++ [(k, v)])%list.
Proof.
  induction d as [| [k1 v1] d IH]; simpl; [reflexivity |].
  destruct (PyStr.eqb k k1); [discriminate |].
  intros H. now rewrite IH.
Qed.

(** ** What the deduplication keeps *)

Lemma str_truthy_some t k : str_truthy t = Some k -> t = Some k.
Proof. destruct t as [[| c s] |]; simpl; congruence. Qed.

Lemma same_id_unique k k' w : same_id k w -> same_id k' w -> k = k'.
Proof. unfold same_id. congruence. Qed.

Lemma dedup_inv_keep d seen v :
  dedup_inv d seen ->
  (forall k, same_id k v -> dict_get k d <> None) ->
  dedup_inv d (seen ++ [v]).
Proof.
  intros (Hk & Hn & Hin & Hall) Hv. repeat split; try assumption.
  - intros k v0 Hg. apply in_or_app. left. now apply (Hin k).
  - intros w k Hw Hid. apply in_app_or in Hw. destruct Hw as [Hw | [<- | []]].
    + now apply (Hall w).
    + now apply Hv.
Qed.

Lemma dedup_inv_set d seen v k :
  dedup_inv d seen -> same_id k v ->
  dedup_inv (dict_set k v d) (seen ++ [v]).
Proof.
  intros (Hk & Hn & Hin & Hall) Hv. repeat split.
  - now apply dict_set_keyed.
  - now apply dict_set_nodup.
  - intros k0 v0. rewrite dict_get_set.
    destruct (PyStr.eqb k0 k).
    + intros H. inversion H. subst. apply in_or_app. right. now left.
    + intros H. apply in_or_app. left. now apply (Hin k0).
  - intros w k0 Hw Hid. rewrite dict_get_set.
    destruct (PyStr.eqb k0 k) eqn:E; [discriminate |].
    apply in_app_or in Hw. destruct Hw as [Hw | [<- | []]].
    + now apply (Hall w).
    + apply str_eqb_neq in E. exfalso. apply E.
      now apply (same_id_unique (w := v)).
Qed.

Lemma dedup_step_inv d seen v d' :
  dedup_inv d seen -> dedup_step d v = Ok d' -> dedup_inv d' (seen ++ [v]).
Proof.
  intros Hinv. unfold dedup_step.
  destruct (str_truthy (identifier v)) as [k |] eqn:Hid.
  2:{ intros H. inversion H; subst d'. apply dedup_inv_keep; [assumption |].
      unfold same_id. congruence. }
  destruct (dict_get k d) as [cur |] eqn:Hg.
  2:{ intros H. inversion H; subst d'. now apply dedup_inv_set. }
  destruct (int_size cur) as [cs |]; [| discriminate].
  destruct (int_size v) as [ns |]; [| discriminate]. cbn [res_bind].
  destruct ((ns <? cs) && (ns >? 0))%Z; intros H; inversion H; subst d'.
  - now apply dedup_inv_set.
  - apply dedup_inv_keep; [assumption |].
    intros k0 Hk0. rewrite (same_id_unique Hk0 Hid). congruence.
Qed.

Lemma dedup_loop_inv all_videos :
  forall d seen d',
    dedup_inv d seen -> dedup_loop all_videos d = Ok d' ->
    dedup_inv d' (seen ++ all_videos).
Proof.
  induction all_videos as [| v rest IH]; simpl; intros d seen d' Hinv H.
  - inversion H; subst. now rewrite app_nil_r.
  - destruct (dedup_step d v) as [d1 |] eqn:E; [| discriminate].
    replace (seen ++ v :: rest)%list with ((seen ++ [v]) ++ rest)%list
      by (now rewrite <- app_assoc).
    apply (IH d1); [| exact H]. eapply dedup_step_inv; eassumption.
Qed.

Lemma dedup_inv_nil : dedup_inv [] [].
Proof.
  repeat split; try constructor.
  - discriminate.
  - intros w k [].
Qed.

Lemma keyed_identifiers d :
  keyed d -> map identifier (dict_values d) = map Some (map fst d).
Proof.
  unfold keyed, dict_values. induction d as [| [k v] d IH]; simpl; intros H.
  - reflexivity.
  - inversion H; subst. simpl in *.
    rewrite (str_truthy_some _ H2). now rewrite IH.
Qed.

Lemma nodup_map_some (A : Type) (l : list A) : NoDup l -> NoDup (map Some l).
Proof.
  induction 1 as [| a l Ha Hl IH]; simpl; constructor; [| assumption].
  intros H. apply in_map_iff in H. destruct H as (b & Hb & Hin).
  inversion Hb; subst. contradiction.
Qed.

(** After the deduplication no two records share an identifier, every
    record kept is a record of the manifest, and every identifier of
    the manifest still has a record. *)
Theorem dedup_one_per_identifier all_videos videos :
  dedup all_videos = Ok videos ->
  NoDup (map identifier videos)
  /\ (forall v, In v videos -> In v all_videos)
  /\ (forall w k, In w all_videos -> same_id k w ->
      exists v, In v videos /\ same_id k v).
Proof.
  unfold dedup. destruct (dedup_loop all_videos []) as [d |] eqn:E;
    [| discriminate].
  intros H. inversion H; subst videos. clear H.
  destruct (dedup_loop_inv all_videos dedup_inv_nil E)
    as (Hk & Hn & Hin & Hall).
  simpl in Hin, Hall. split; [| split].
  - rewrite keyed_identifiers by assumption. now apply nodup_map_some.
  - intros v Hv. unfold dict_values in Hv. apply in_map_iff in Hv.
    destruct Hv as ([k v'] & <- & Hkv). apply (Hin k).
    now apply dict_in_get.
  - intros w k Hw Hid.
    destruct (dict_get k d) as [v |] eqn:Hg; [| now elim (Hall w k)].
    exists v. apply dict_get_in in Hg. split.
    + unfold dict_values. now apply (in_map snd) in Hg.
    + unfold keyed in Hk. rewrite Forall_forall in Hk. now apply (Hk (k, v)).
Qed.

(** The deduplication of the demo manifest. *)
Lemma dedup_one_per_identifier_witness :
  let videos :=
    [Sim.rec_ "abc" "http://x/b.mp4" "Film (1h 21m, 704x512)" 200;
     Sim.rec_ "d" "http://x/d.mp4" "no duration here" 10;
     Video (Some "e") None None None None] in
  NoDup (map identifier videos)
  /\ (forall v, In v videos -> In v Sim.demo_videos)
  /\ (forall w k, In w Sim.demo_videos -> same_id k w ->
      exists v, In v videos /\ same_id k v).
Proof.
  exact (@dedup_one_per_identifier Sim.demo_videos _ eq_refl).
Defined.

Lemma dedup_loop_rebuild d :
  forall d0,
    keyed d -> NoDup (map fst d0 ++ map fst d) ->
    dedup_loop (map snd d) d0 = Ok (d0 ++ d)%list.
Proof.
  induction d as [| [k v] d IH]; simpl; intros d0 Hk Hn.
  - now rewrite app_nil_r.
  - inversion Hk; subst. simpl in *.
    unfold dedup_step. rewrite H1.
    assert (Hg : dict_get k d0 = None).
    { apply dict_get_none. intros Hin.
      apply NoDup_remove_2 in Hn. apply Hn. apply in_or_app. now left. }
    rewrite Hg. cbn [res_bind]. rewrite (@dict_set_new k v d0 Hg).
    rewrite IH.
    + now rewrite <- app_assoc.
    + assumption.
    + rewrite map_app, <- app_assoc. exact Hn.
Qed.

(** Deduplicating what the deduplication kept changes nothing. *)
Theorem dedup_idempotent all_videos videos :
  dedup all_videos = Ok videos -> dedup videos = Ok videos.
Proof.
  unfold dedup at 1. destruct (dedup_loop all_videos []) as [d |] eqn:E;
    [| discriminate].
  intros H. inversion H; subst videos. clear H.
  destruct (dedup_loop_inv all_videos dedup_inv_nil E) as (Hk & Hn & _).
  unfold dedup, dict_values.
  now rewrite (@dedup_loop_rebuild d [] Hk Hn).
Qed.

Lemma dedup_idempotent_witness :
  dedup [Sim.rec_ "abc" "http://x/b.mp4" "Film (1h 21m, 704x512)" 200;
         Sim.rec_ "d" "http://x/d.mp4" "no duration here" 10;
         Video (Some "e") None None None None]
  = Ok [Sim.rec_ "abc" "http://x/b.mp4" "Film (1h 21m, 704x512)" 200;
        Sim.rec_ "d" "http://x/d.mp4" "no duration here" 10;
        Video (Some "e") None None None None].
Proof.
  exact (@dedup_idempotent Sim.demo_videos _ eq_refl).
Defined.

(** ** Which duplicate is kept *)

Section Smallest.
Variable sz : video -> Z.

Lemma first_smallest_later v0 k0 seen v :
  first_smallest sz v0 k0 seen ->
  (same_id k0 v -> sz v0 <= sz v) ->
  first_smallest sz v0 k0 (seen ++ [v]).
Proof.
  intros (l1 & l2 & -> & H1 & H2) Hv.
  exists l1, (l2 ++ [v])%list. split; [| split].
  - now rewrite <- app_assoc.
  - assumption.
  - intros w Hw Hid. apply in_app_or in Hw.
    destruct Hw as [Hw | [<- | []]]; auto.
Qed.

Lemma first_smallest_last v k seen :
  (forall w, In w seen -> same_id k w -> sz v < sz w) ->
  first_smallest sz v k (seen ++ [v]).
Proof.
  intros H. exists seen, []. split; [reflexivity | split].
  - assumption.
  - intros w [].
Qed.

Lemma first_smallest_bound cur k seen w :
  first_smallest sz cur k seen -> In w seen -> same_id k w ->
  same_id k cur -> sz cur <= sz w.
Proof.
  intros (l1 & l2 & -> & H1 & H2) Hw Hid Hcur.
  apply in_app_or in Hw. destruct Hw as [Hw | [<- | Hw]].
  - specialize (H1 w Hw Hid). lia.
  - lia.
  - now apply H2.
Qed.

Lemma dedup_step_smallest d seen v :
  dedup_inv d seen -> min_inv sz d seen ->
  (forall w, In w (seen ++ [v]) -> int_size w = Ok (sz w) /\ 0 < sz w) ->
  exists d', dedup_step d v = Ok d' /\ min_inv sz d' (seen ++ [v]).
Proof.
  intros Hinv Hmin Hsz.
  pose proof Hinv as (Hk & Hn & Hin & Hall).
  unfold dedup_step.
  destruct (str_truthy (identifier v)) as [k |] eqn:Hid.
  2:{ exists d. split; [reflexivity |]. intros k0 v0 Hg.
      apply first_smallest_later; [now apply Hmin |].
      unfold same_id. congruence. }
  destruct (dict_get k d) as [cur |] eqn:Hg.
  2:{ eexists. split; [reflexivity |]. intros k0 v0. rewrite dict_get_set.
      destruct (PyStr.eqb k0 k) eqn:E.
      - apply str_eqb_eq in E. subst k0. intros H. inversion H; subst v0.
        apply first_smallest_last. intros w Hw Hidw.
        now elim (Hall w k Hw Hidw).
      - intros Hg0. apply first_smallest_later; [now apply Hmin |].
        intros Hid0. apply str_eqb_neq in E. exfalso. apply E.
        now apply (same_id_unique (w := v)). }
  assert (Hcur_seen : In cur seen) by now apply (Hin k).
  assert (Hcur_id : same_id k cur).
  { apply dict_get_in in Hg. unfold keyed in Hk.
    rewrite Forall_forall in Hk. now apply (Hk (k, cur)). }
  assert (Hcur_in : In cur (seen ++ [v])) by (apply in_or_app; now left).
  assert (Hv_in : In v (seen ++ [v])) by (apply in_or_app; right; now left).
  destruct (Hsz cur Hcur_in) as [-> _].
  destruct (Hsz v Hv_in) as [-> Hpos].
  cbn [res_bind].
  destruct (sz v <? sz cur)%Z eqn:Hlt; simpl.
  - apply Z.ltb_lt in Hlt.
    replace (sz v >? 0)%Z with true by (symmetry; apply Z.gtb_lt; lia).
    eexists. split; [reflexivity |]. intros k0 v0. rewrite dict_get_set.
    destruct (PyStr.eqb k0 k) eqn:E.
    + apply str_eqb_eq in E. subst k0. intros H. inversion H; subst v0.
      apply first_smallest_last. intros w Hw Hidw.
      pose proof (first_smallest_bound (Hmin k cur Hg) Hw Hidw Hcur_id). lia.
    + intros Hg0. apply first_smallest_later; [now apply Hmin |].
      intros Hid0. apply str_eqb_neq in E. exfalso. apply E.
      now apply (same_id_unique (w := v)).
  - apply Z.ltb_ge in Hlt.
    exists d. split; [reflexivity |]. intros k0 v0 Hg0.
    apply first_smallest_later; [now apply Hmin |].
    intros Hid0. rewrite (same_id_unique Hid0 Hid) in Hg0.
    rewrite Hg in Hg0. inversion Hg0; subst v0. exact Hlt.
Qed.

Lemma dedup_loop_smallest all_videos :
  forall d seen,
    dedup_inv d seen -> min_inv sz d seen ->
    (forall w, In w (seen ++ all_videos) ->
               int_size w = Ok (sz w) /\ 0 < sz w) ->
    exists d', dedup_loop all_videos d = Ok d'
               /\ dedup_inv d' (seen ++ all_videos)
               /\ min_inv sz d' (seen ++ all_videos).
Proof.
  induction all_videos as [| v rest IH]; simpl; intros d seen Hinv Hmin Hsz.
  - exists d. rewrite app_nil_r. auto.
  - assert (Heq : (seen ++ v :: rest)%list = ((seen ++ [v]) ++ rest)%list)
      by (now rewrite <- app_assoc).
    rewrite Heq in Hsz |- *.
    destruct (@dedup_step_smallest d seen v Hinv Hmin) as (d1 & Hs & Hmin1).
    { intros w Hw. apply Hsz. apply in_or_app. now left. }
    rewrite Hs. cbn [res_bind].
    apply IH; try assumption. eapply dedup_step_inv; eassumption.
Qed.

End Smallest.

(** When every size of the manifest is a positive integer, the
    deduplication succeeds, and the record kept for an identifier is
    the first of the smallest ones: every earlier record of that
    identifier is strictly larger, every later one at least as large. *)
Theorem dedup_keeps_first_smallest (sz : video -> Z) all_videos :
  (forall w, In w all_videos -> int_size w = Ok (sz w) /\ 0 < sz w) ->
  exists videos,
    dedup all_videos = Ok videos
    /\ forall v k, In v videos -> same_id k v ->
                   first_smallest sz v k all_videos.
Proof.
  intros Hsz.
  destruct (@dedup_loop_smallest sz all_videos [] [] dedup_inv_nil)
    as (d & Hd & (Hk & Hn & _) & Hmin).
  - intros k v H. discriminate.
  - exact Hsz.
  - simpl in Hmin. exists (dict_values d). unfold dedup. rewrite Hd.
    split; [reflexivity |]. intros v k Hv Hid.
    unfold dict_values in Hv. apply in_map_iff in Hv.
    destruct Hv as ([k' v'] & <- & Hkv). simpl in *.
    assert (k' = k).
    { unfold keyed in Hk. rewrite Forall_forall in Hk.
      specialize (Hk (k', v') Hkv). simpl in Hk.
      unfold same_id in Hid. congruence. }
    subst k'. apply Hmin. now apply dict_in_get.
Qed.

(** Sizes 500, 200 and 200 under one identifier: the first record of
    size 200 is kept. *)
Lemma dedup_keeps_first_smallest_witness :
  exists videos,
    dedup [Sim.rec_ "abc" "http://x/a.mp4" "" 500;
           Sim.rec_ "abc" "http://x/b.mp4" "" 200;
           Sim.rec_ "abc" "http://x/c.mp4" "" 200] = Ok videos
    /\ forall v k, In v videos -> same_id k v ->
         first_smallest
           (fun w => match int_size w with Ok s => s | Err _ => 0 end) v k
           [Sim.rec_ "abc" "http://x/a.mp4" "" 500;
            Sim.rec_ "abc" "http://x/b.mp4" "" 200;
            Sim.rec_ "abc" "http://x/c.mp4" "" 200].
Proof.
  apply dedup_keeps_first_smallest.
  intros w [<- | [<- | [<- | []]]]; split; reflexivity.
Defined.

(** ** What parse_duration returns and raises *)

Lemma decimal_from_nonneg s : forall acc, 0 <= acc -> 0 <= Token.decimal_from acc s.
Proof.
  induction s as [| c s IH]; simpl; intros acc Hacc; [assumption |].
  apply IH. pose proof (digit_val_range c). lia.
Qed.

Lemma token_value_nonneg t : 0 <= Token.value t.
Proof.
  unfold Token.value, Token.decimal.
  assert (H : forall s, 0 <= Token.decimal_from 0 s)
    by (intros s; apply decimal_from_nonneg; lia).
  pose proof (H (Token.minutes t)).
  destruct (Token.hours t) as [[d w] |], (Token.seconds t) as [ds |];
    try pose proof (H d); try pose proof (H ds); lia.
Qed.

(** A duration [parse_duration] returns is never negative. It raises
    in two cases only: a [TypeError] on a title that is [None], and the
    [ValueError] of [int] on a title whose leftmost token has a number
    of more than 4300 digits. *)
Theorem parse_duration_outcomes (title : title_value) :
  (forall v, parse_duration title = Ok (Some v) -> 0 <= v)
  /\
  (forall e,
      parse_duration title = Err e ->
      (title = TitleNull /\ exn_cls e = TypeError)
      \/ (exn_cls e = ValueError
          /\ exists t n (s : str),
               title = TitleStr s
               /\ Token.well_formed t = true /\ Token.occurs_at t n s
               /\ (forall t' n',
                      Token.well_formed t' = true ->
                      Token.occurs_at t' n' s -> (n <= n')%nat)
               /\ Token.within_limit t = false))
  /\
  (title = TitleNull ->
   exists e, parse_duration title = Err e /\ exn_cls e = TypeError).
Proof.
  destruct title as [| s].
  - split; [discriminate |]. split.
    + intros e H. inversion H. now left.
    + intros _. eexists. split; reflexivity.
  - split; [| split; [| discriminate]].
    + intros v Hv.
      destruct (parse_duration_cases s)
        as [(t & n & Hwf & Hocc & Hleft & Hp) | (_ & Hp)];
        rewrite Hp in Hv; [| discriminate].
      destruct (Token.within_limit t); [| discriminate].
      inversion Hv. apply token_value_nonneg.
    + intros e He. right.
      destruct (parse_duration_cases s)
        as [(t & n & Hwf & Hocc & Hleft & Hp) | (_ & Hp)];
        rewrite Hp in He; [| discriminate].
      destruct (Token.within_limit t) eqn:Hlim; [discriminate |].
      inversion He. split; [reflexivity |].
      exists t, n, s. auto.
Qed.

(* ================================================================= *)
(** ** The probe, the loop and the startup check *)

Section Behaviour.
Context {W : Type} {world : World W}.

(** [get_video_duration] never raises and never exits. It runs ffprobe
    once, with timeout 30. It returns a duration exactly when the
    process completed with status 0 and its output, stripped, is a
    float; a non-zero status gives [None] and prints nothing; an
    exception of the run gives [None] and prints one warning. *)
Theorem get_video_duration_failures (url : str) (st : state W) :
  let answer := fst (subprocess_run (ffprobe_cmd url) (Some 30) (st_world st)) in
  exists (d : option float) (st' : state W),
    get_video_duration url st = (Ret d, st')
    /\ st_calls st' = List.app (st_calls st) [(ffprobe_cmd url, Some 30)]
    /\ (forall f, d = Some f <->
          exists c, answer = Ok c /\ returncode c = 0
                    /\ py_float (PyStr.strip (stdout c)) = Ok f)
    /\ (forall c, answer = Ok c -> returncode c <> 0 -> st_out st' = st_out st)
    /\ (forall e, answer = Err e ->
          st_out st' =
          List.app (st_out st)
            ["  ⚠ Could not get duration via ffprobe: " ++ exn_msg e]).
Proof.
  intros answer. subst answer.
  unfold get_video_duration, try_except, bind, run.
  destruct (subprocess_run (ffprobe_cmd url) (Some 30) (st_world st))
    as [[c | e] w]; cbn [fst snd].
  - destruct (returncode c =? 0)%Z eqn:Hrc.
    + apply Z.eqb_eq in Hrc. unfold lift.
      destruct (py_float (PyStr.strip (stdout c))) as [f | e] eqn:Hf; cbn.
      * eexists _, _. split; [reflexivity |]. split; [reflexivity |].
        split; [| split].
        -- intros f0. split.
           ++ intros H. inversion H; subst f0. now exists c.
           ++ intros (c' & Hc' & _ & Hf'). inversion Hc'; subst c'.
              congruence.
        -- intros c' Hc' Hnz. inversion Hc'; subst c'. contradiction.
        -- discriminate.
      * eexists _, _. split; [reflexivity |]. split; [reflexivity |].
        split; [| split].
        -- intros f0. split; [discriminate |].
           intros (c' & Hc' & _ & Hf'). inversion Hc'; subst c'. congruence.
        -- intros c' Hc' Hnz. inversion Hc'; subst c'. contradiction.
        -- discriminate.
    + apply Z.eqb_neq in Hrc. cbn.
      eexists _, _. split; [reflexivity |]. split; [reflexivity |].
      split; [| split].
      * intros f0. split; [discriminate |].
        intros (c' & Hc' & Hz & _). inversion Hc'; subst c'. contradiction.
      * reflexivity.
      * discriminate.
  - cbn. eexists _, _. split; [reflexivity |]. split; [reflexivity |].
    split; [| split].
    + intros f0. split; [discriminate |]. intros (c' & Hc' & _). discriminate.
    + discriminate.
    + intros e' He'. now inversion He'.
Qed.

(** The subprocesses one video starts: none (the record is skipped, or
    an exception ends the iteration before the extraction), the
    extraction alone, or the probe and then the extraction; never two
    extractions, never a probe without an extraction. *)
Lemma process_video_trace i total v c (st : state W) :
  exists new,
    st_calls (snd (process_video i total v c st))
    = List.app (st_calls st) new
    /\ (new = []
        \/ exists u id seek_time,
             str_truthy (url v) = Some u
             /\ str_truthy (identifier v) = Some id
             /\ let extraction :=
                  (ffmpeg_cmd u (thumb_path_of id) (Some seek_time), Some 60) in
                (new = [extraction]
                 \/ new = [(ffprobe_cmd u, Some 30); extraction])).
Proof.
  destruct (str_truthy (url v)) as [u |] eqn:Hu.
  2:{ destruct (@process_video_missing _ _ i total v c st (or_introl Hu))
        as (st' & H & Hc & _).
      exists []. rewrite H, app_nil_r. auto. }
  destruct (str_truthy (identifier v)) as [id |] eqn:Hid.
  2:{ destruct (@process_video_missing _ _ i total v c st (or_intror Hid))
        as (st' & H & Hc & _).
      exists []. rewrite H, app_nil_r. auto. }
  destruct (os_stat (thumb_path_of id) (st_world st)) as [| | e0] eqn:Hex.
  { apply path_exists_found in Hex.
    destruct (@process_video_exists _ _ i total v c st u id Hu Hid Hex)
      as (st' & H & Hc & _).
    exists []. rewrite H, app_nil_r. auto. }
  2:{ exists [].
      rewrite (@process_video_stat_error _ _ i total v c st u id e0 Hu Hid Hex).
      rewrite app_nil_r. auto. }
  destruct (title_of v) as [| t] eqn:Ht.
  { exists [].
    rewrite (@process_video_null_title _ _ i total v c st u id Hu Hid Hex Ht).
    rewrite app_nil_r. auto. }
  pose proof (@process_video_extract _ _ i total v c st u id t Hu Hid Hex Ht)
    as H.
  cbv zeta in H. rewrite Ht in H.
  destruct (parse_duration (TitleStr t)) as [d | e0] eqn:Hp.
  2:{ match type of H with
      | match resolve_seek_time ?t ?u ?s with _ => _ end =>
          rewrite (resolve_parse_error t u s Hp) in H
      end.
      exists []. rewrite H, app_nil_r. auto. }
  destruct (int_truthy d) as [D |] eqn:Hd.
  - apply int_truthy_some in Hd. destruct Hd as [-> HD].
    destruct (int_truediv2 D) as [f | e] eqn:Hf.
    + match type of H with
      | match resolve_seek_time ?t ?u ?s with _ => _ end =>
          destruct (resolve_from_title t u s Hp HD Hf) as (st2 & Hr & Hc & _)
      end.
      rewrite Hr in H. destruct H as (ok & st' & H & Hc').
      eexists. rewrite H. cbn [snd]. rewrite Hc', Hc. cbn [st_calls].
      split; [reflexivity |]. right. exists u, id, (PyFloat f). auto.
    + match type of H with
      | match resolve_seek_time ?t ?u ?s with _ => _ end =>
          rewrite (resolve_overflow t u s Hp HD Hf) in H
      end.
      exists []. rewrite H, app_nil_r. auto.
  - match type of H with
    | match resolve_seek_time ?t ?u ?s with _ => _ end =>
        destruct (resolve_from_probe t u s Hp Hd) as (st2 & Hr & Hc & _)
    end.
    rewrite Hr in H. destruct H as (ok & st' & H & Hc').
    eexists. rewrite H. cbn [snd]. rewrite Hc', Hc. cbn [st_calls].
    rewrite <- app_assoc. split; [reflexivity |].
    right. eexists u, id, _. split; [reflexivity |]. split; [reflexivity |].
    right. reflexivity.
Qed.


End Behaviour.

Section Loop.
Context {W : Type} {world : World W}.

(** A second run over videos whose thumbnails exist: every video with
    a URL is skipped as existing, every other one as missing its URL;
    no subprocess starts and the world is left as it was. *)
Theorem existing_thumbnails_skipped videos :
  forall i total c (st : state W),
    Forall (fun v => forall u id,
                       str_truthy (url v) = Some u ->
                       str_truthy (identifier v) = Some id ->
                       path_exists (thumb_path_of id) (st_world st) = true)
      videos ->
    exists st',
      process_videos i total videos c st =
        (Ret (Counters (success_count c) (failed_count c)
                (skipped_count c + Z.of_nat (List.length videos))), st')
      /\ st_calls st' = st_calls st /\ st_world st' = st_world st.
Proof.
  induction videos as [| v rest IH]; intros i total c st Hall.
  - exists st. cbn. rewrite Z.add_0_r. destruct c. auto.
  - inversion Hall as [| v' rest' Hv Hrest]; subst.
    assert (Hstep : exists st1,
               process_video i total v c st = (Ret (incr_skipped c), st1)
               /\ st_calls st1 = st_calls st /\ st_world st1 = st_world st).
    { destruct (str_truthy (url v)) as [u |] eqn:Hu.
      2:{ now apply process_video_missing; left. }
      destruct (str_truthy (identifier v)) as [id |] eqn:Hid.
      2:{ now apply process_video_missing; right. }
      apply (@process_video_exists _ _ i total v c st u id Hu Hid).
      now apply (Hv u id). }
    destruct Hstep as (st1 & H1 & Hc1 & Hw1).
    cbn [process_videos]. bind_with H1.
    destruct (IH (S i) total (incr_skipped c) st1) as (st' & H & Hc & Hw).
    { rewrite Hw1. exact Hrest. }
    exists st'. rewrite H. cbn [incr_skipped success_count failed_count
                                skipped_count List.length].
    assert (E : skipped_count c + 1 + Z.of_nat (List.length rest)
                = skipped_count c + Z.of_nat (S (List.length rest))) by lia.
    rewrite E. split; [reflexivity | split; congruence].
Qed.


(** A title whose duration, halved, is too large for a float ends the
    run: the [OverflowError] of the division is caught nowhere, the
    video gets no subprocess and the videos after it are not
    processed. *)
Theorem overflowing_title_aborts i total v rest c (st : state W) u id D e :
  str_truthy (url v) = Some u ->
  str_truthy (identifier v) = Some id ->
  os_stat (thumb_path_of id) (st_world st) = Missing ->
  parse_duration (title_of v) = Ok (Some D) -> D <> 0 ->
  int_truediv2 D = Err e ->
  exists st',
    process_videos i total (v :: rest) c st = (Raise e, st')
    /\ st_calls st' = st_calls st /\ st_world st' = st_world st.
Proof.
  intros Hu Hid Hex Hp HD Hf.
  destruct (parsed_title_str _ Hp) as (t & Ht).
  pose proof (@process_video_extract _ _ i total v c st u id t Hu Hid Hex Ht)
    as H.
  cbv zeta in H.
  match type of H with
  | match resolve_seek_time ?t ?u ?s with _ => _ end =>
      rewrite (resolve_overflow t u s Hp HD Hf) in H
  end.
  cbn [process_videos]. bind_with H.
  eexists. repeat split; reflexivity.
Qed.


(** An error of [os.stat] on the thumbnail path other than a missing
    file ends the run: [Path.exists] lets it through, where
    [os.path.exists] would answer [False]; nothing catches it, no
    subprocess is started and the videos after it are not processed. *)
Theorem thumbnail_stat_error_aborts i total v rest c (st : state W) u id e :
  str_truthy (url v) = Some u ->
  str_truthy (identifier v) = Some id ->
  os_stat (thumb_path_of id) (st_world st) = StatError e ->
  process_videos i total (v :: rest) c st = (Raise e, st)
  /\ path_exists (thumb_path_of id) (st_world st) = false.
Proof.
  intros Hu Hid Hex. split.
  - pose proof (@process_video_stat_error _ _ i total v c st u id e
                  Hu Hid Hex) as H.
    cbn [process_videos]. now bind_with H.
  - unfold path_exists. now rewrite Hex.
Qed.

(** The startup check catches [CalledProcessError] and
    [FileNotFoundError] only: any other exception of the run of
    [ffmpeg -version] ends [main] uncaught, with nothing else done. *)
Theorem startup_check_other_exception (st : state W) e :
  fst (subprocess_run ffmpeg_version_cmd None (st_world st)) = Err e ->
  exn_cls e <> CalledProcessError -> exn_cls e <> FileNotFoundError ->
  exists st',
    main st = (Raise e, st')
    /\ st_calls st' = List.app (st_calls st) [(ffmpeg_version_cmd, None)]
    /\ st_out st' = st_out st.
Proof.
  intros He H1 H2. pose proof (check_ffmpeg_cases st) as Hc.
  cbv zeta in Hc. rewrite He in Hc.
  assert (Hm : tool_missing (Err e) = false)
    by (unfold tool_missing; destruct (exn_cls e); congruence).
  rewrite Hm in Hc. destruct Hc as [(c & Hc & _) | (e' & He' & Hc)];
    [discriminate |].
  inversion He'; subst e'. unfold main. bind_with Hc.
  eexists. repeat split; reflexivity.
Qed.

Lemma ffmpeg_cmd_is_ffmpeg u p seek_time timeout :
  is_ffmpeg (ffmpeg_cmd u p seek_time, timeout) = true
  /\ is_ffprobe (ffmpeg_cmd u p seek_time, timeout) = false.
Proof.
  unfold ffmpeg_cmd, is_ffmpeg, is_ffprobe. cbn [fst].
  now destruct (seek_truthy seek_time).
Qed.

(** The subprocesses of the loop: each one is the probe or the
    extraction of one of the videos, the extraction writing to the
    thumbnail path of that video's identifier; and there are at most
    as many extractions, and as many probes, as videos: nothing is
    tried twice. *)
Theorem loop_calls_for_videos videos :
  forall i total c (st : state W),
    exists new,
      st_calls (snd (process_videos i total videos c st))
      = List.app (st_calls st) new
      /\ Forall (for_video videos) new
      /\ (List.length (filter is_ffmpeg new) <= List.length videos)%nat
      /\ (List.length (filter is_ffprobe new) <= List.length videos)%nat.
Proof.
  induction videos as [| v rest IH]; intros i total c st.
  - exists []. cbn. rewrite app_nil_r. repeat split; auto.
  - destruct (process_video_trace i total v c st) as (new1 & Hc1 & Hshape).
    assert (Hnew1 : Forall (for_video (v :: rest)) new1
                    /\ (List.length (filter is_ffmpeg new1) <= 1)%nat
                    /\ (List.length (filter is_ffprobe new1) <= 1)%nat).
    { destruct Hshape as [-> | (u & id & seek & Hu & Hid & Hshape)].
      - repeat split; auto.
      - cbv zeta in Hshape.
        assert (Hext : for_video (v :: rest)
                         (ffmpeg_cmd u (thumb_path_of id) (Some seek),
                          Some 60)).
        { exists v, u, id. repeat split; try assumption; [now left |].
          right. now exists seek. }
        assert (Hprobe : for_video (v :: rest) (ffprobe_cmd u, Some 30)).
        { exists v, u, id. repeat split; try assumption; [now left |].
          now left. }
        destruct (ffmpeg_cmd_is_ffmpeg u (thumb_path_of id) (Some seek)
                    (Some 60)) as [E1 E2].
        destruct Hshape as [-> | ->]; cbn [filter]; rewrite ?E1, ?E2;
          cbn; repeat split; auto. }
    destruct Hnew1 as (Hf1 & Hm1 & Hp1).
    cbn [process_videos].
    destruct (process_video i total v c st) as [[c1 | e | code] st1] eqn:H1;
      cbn [snd] in Hc1; bind_with H1.
    + destruct (IH (S i) total c1 st1) as (new2 & Hc2 & Hf2 & Hm2 & Hp2).
      exists (new1 ++ new2)%list. rewrite Hc2, Hc1, <- app_assoc.
      split; [reflexivity |]. split; [| split].
      * apply Forall_app. split; [assumption |].
        eapply Forall_impl; [| exact Hf2].
        intros cl (v' & u & id & Hin & Hrest).
        exists v', u, id. split; [now right | assumption].
      * rewrite filter_app, length_app. cbn [List.length]. lia.
      * rewrite filter_app, length_app. cbn [List.length]. lia.
    + exists new1. cbn [snd]. repeat split; try assumption;
        cbn [List.length]; lia.
    + exists new1. cbn [snd]. repeat split; try assumption;
        cbn [List.length]; lia.
Qed.

End Loop.

(** ** These properties on concrete runs *)

Lemma existing_thumbnails_skipped_witness :
  exists st',
    process_videos 1 3 Sim.demo_kept (Counters 0 0 0)
      (Sim.start Sim.rerun_world) = (Ret (Counters 0 0 3), st')
    /\ st_calls st' = [] /\ st_world st' = Sim.rerun_world.
Proof.
  apply (@existing_thumbnails_skipped Sim.sim Sim.sim_world Sim.demo_kept
           1%nat 3%nat (Counters 0 0 0) (Sim.start Sim.rerun_world)).
  repeat constructor; intros u id Hu Hid; vm_compute in Hu, Hid;
    try discriminate; inversion Hid; reflexivity.
Defined.


Lemma overflowing_title_aborts_witness :
  exists st',
    process_videos 1 1 [Sim.endless] (Counters 0 0 0)
      (Sim.start Sim.endless_world)
    = (Raise (Exn OverflowError
                "integer division result too large for a float"), st')
    /\ st_calls st' = [] /\ st_world st' = Sim.endless_world.
Proof.
  assert (Hp : parse_duration (title_of Sim.endless)
               = Ok (Some ((10 ^ 400 - 1) * 60)))
    by (vm_compute; reflexivity).
  assert (HD : (10 ^ 400 - 1) * 60 <> 0)
    by (vm_compute; discriminate).
  assert (Hf : int_truediv2 ((10 ^ 400 - 1) * 60)
               = Err (Exn OverflowError
                        "integer division result too large for a float"))
    by (vm_compute; reflexivity).
  exact (@overflowing_title_aborts Sim.sim Sim.sim_world 1 1 Sim.endless []
           (Counters 0 0 0) (Sim.start Sim.endless_world)
           "http://x/h.mp4" "h" _ _ eq_refl eq_refl eq_refl Hp HD Hf).
Defined.

Lemma startup_check_other_exception_witness :
  exists st',
    main (Sim.start Sim.denied_world)
    = (Raise (Exn OSError "[Errno 13] Permission denied: 'ffmpeg'"), st')
    /\ st_calls st' = [(ffmpeg_version_cmd, None)]
    /\ st_out st' = [].
Proof.
  apply (@startup_check_other_exception Sim.sim Sim.sim_world
           (Sim.start Sim.denied_world)); [reflexivity | |]; discriminate.
Defined.


Lemma thumbnail_stat_error_aborts_witness :
  process_videos 1 1 [Sim.zero_title] (Counters 0 0 0)
    (State Sim.Jammed [] [])
  = (Raise (Exn OSError "[Errno 36] File name too long"),
     State Sim.Jammed [] [])
  /\ path_exists (thumb_path_of (W := Sim.jammed) "z") Sim.Jammed = false.
Proof.
  exact (@thumbnail_stat_error_aborts Sim.jammed Sim.jammed_world 1 1
           Sim.zero_title [] (Counters 0 0 0) (State Sim.Jammed [] [])
           "http://x/z.mp4" "z" _ eq_refl eq_refl eq_refl).
Defined.
